(** * Hailey bingo: the board store, the win detector, the theme store and
      the search filter of [src/App.tsx], embedded in Rocq.

    JavaScript values are modelled as follows.
    - A string is its sequence of UTF-16 code units ([JsString]).
    - A thrown exception is [None] in the [option] monad; a function that
      cannot throw is a plain function.
    - An array is a [list]; reading an index that is out of range gives
      [undefined], and reading a property of [undefined] throws. *)

From Stdlib Require Import ZArith NArith Ascii String Bool.
From stdpp Require Import base option list gmap.

Local Open Scope Z_scope.
Local Open Scope nat_scope.

(** ** Strings *)

Abbreviation JsString := (list N).

(** The code units of an ASCII literal. *)
Definition js (s : string) : JsString :=
  N_of_ascii <$> list_ascii_of_string s.

(** ** Data model (App.tsx, lines 7-15) *)

Record BingoCell := mkCell { question : JsString; checked : bool }.

Record Question := mkQuestion { q_id : Z; q_question : JsString }.

Abbreviation Board := (list (list BingoCell)).

Global Instance BingoCell_eq_dec : EqDecision BingoCell.
Proof. solve_decision. Defined.

(** A board of the shape the application builds: five rows of five cells. *)
Definition is5x5 (board : Board) : Prop :=
  length board = 5 ∧ Forall (λ row, length row = 5) board.

Global Instance is5x5_dec board : Decision (is5x5 board).
Proof. unfold is5x5. apply _. Defined.

(** [board[r][c]] and [board[r][c].checked], [None] when a read on the way
    gives [undefined]. *)
Definition cellAt (board : Board) (r c : nat) : option BingoCell :=
  row ← board !! r; row !! c.

Definition checkedAt (board : Board) (r c : nat) : option bool :=
  checked <$> cellAt board r c.

(** [arr[i]] for a number [i] that may be negative: [undefined] below 0. *)
Definition getIdx {A} (arr : list A) (i : Z) : option A :=
  if (i <? 0)%Z then None else arr !! Z.to_nat i.

(** ** Array.prototype.every and the early-returning [for] loop *)

(** [arr.every((x, idx) => f x idx)], started at index [idx]: it stops at
    the first element whose test is false, and a test that throws makes the
    whole call throw. *)
Fixpoint every {A} (f : A → nat → option bool) (idx : nat) (arr : list A)
  : option bool :=
  match arr with
  | [] => Some true
  | x :: rest =>
      b ← f x idx;
      if b : bool then every f (S idx) rest else Some false
  end.

(** [for (let i = from; i < from + count; i++) { if (body i) return true; }]
    The result is [Some true] when the loop returned, [Some false] when it
    ran to its end. *)
Fixpoint forReturn (body : nat → option bool) (from count : nat)
  : option bool :=
  match count with
  | O => Some false
  | S k =>
      b ← body from;
      if b : bool then Some true else forReturn body (S from) k
  end.

(** The same two constructs for a test that cannot throw. *)
Fixpoint everyB {A} (g : A → nat → bool) (idx : nat) (arr : list A) : bool :=
  match arr with
  | [] => true
  | x :: rest => g x idx && everyB g (S idx) rest
  end.

Fixpoint forReturnB (body : nat → bool) (from count : nat) : bool :=
  match count with
  | O => false
  | S k => body from || forReturnB body (S from) k
  end.

(** ** Win detector *)

(** The later revision (App.tsx, lines 473-486). *)
Definition isBingo (board : Board) : option bool :=
  (* Check rows *)
  rows ← forReturn
    (λ i, row ← board !! i; every (λ cell _, Some (checked cell)) 0 row) 0 5;
  if rows : bool then Some true else
  (* Check columns *)
  cols ← forReturn
    (λ j, every (λ row _, cell ← row !! j; Some (checked cell)) 0 board) 0 5;
  if cols : bool then Some true else
  (* Check diagonals *)
  d1 ← every (λ row idx, cell ← row !! idx; Some (checked cell)) 0 board;
  if d1 : bool then Some true else
  d2 ← every (λ row idx, cell ← getIdx row (4 - Z.of_nat idx)%Z;
                          Some (checked cell)) 0 board;
  if d2 : bool then Some true else
  Some false.

(** The win detector as one boolean formula, for boards on which no read
    can fail. *)
Definition isBingoB (board : Board) : bool :=
  forReturnB (λ i, everyB (λ cell _, checked cell) 0 (default [] (board !! i))) 0 5
  || (forReturnB (λ j, everyB (λ row _, default false (checked <$> row !! j))
                         0 board) 0 5
  || (everyB (λ row idx, default false (checked <$> row !! idx)) 0 board
  || (everyB (λ row idx, default false
                (checked <$> getIdx row (4 - Z.of_nat idx)%Z)) 0 board
  || false))).

Module Earlier.

(** The earlier revision (App.tsx, lines 101-114). *)
Definition isBingo (board : Board) : option bool :=
  rows ← forReturn
    (λ i, row ← board !! i; every (λ cell _, Some (checked cell)) 0 row)
    0 5;
  if rows : bool then Some true else
  cols ← forReturn
    (λ j, every (λ row _, cell ← row !! j; Some (checked cell)) 0 board)
    0 5;
  if cols : bool then Some true else
  d1 ← every (λ row idx, cell ← row !! idx; Some (checked cell)) 0 board;
  if d1 : bool then Some true else
  d2 ← every (λ row idx, cell ← getIdx row (4 - Z.of_nat idx)%Z;
                          Some (checked cell)) 0 board;
  if d2 : bool then Some true else
  Some false.

End Earlier.

(** ** The lines, as the specification lists them: the five rows, the five
       columns, the main diagonal and the anti-diagonal *)

Definition rowLine (r : nat) : list (nat * nat) := (λ c, (r, c)) <$> seq 0 5.
Definition colLine (c : nat) : list (nat * nat) := (λ r, (r, c)) <$> seq 0 5.
Definition mainDiagonal : list (nat * nat) := (λ i, (i, i)) <$> seq 0 5.
Definition antiDiagonal : list (nat * nat) := (λ i, (i, 4 - i)) <$> seq 0 5.

Definition bingoLines : list (list (nat * nat)) :=
  (rowLine <$> seq 0 5) ++ (colLine <$> seq 0 5)
  ++ [mainDiagonal; antiDiagonal].

(** A line is full when each of its positions holds a checked cell. *)
Definition lineFull (board : Board) (line : list (nat * nat)) : Prop :=
  ∀ r c, (r, c) ∈ line → checkedAt board r c = Some true.

Definition lineFullb (board : Board) (line : list (nat * nat)) : bool :=
  forallb (λ p, default false (checkedAt board p.1 p.2)) line.

(** ** Toggle (the updater passed to [setBoard], App.tsx lines 457-465) *)

Definition toggleCell (row col : Z) (prev : Board) : Board :=
  imap (λ rIdx r,
    if bool_decide (Z.of_nat rIdx ≠ row) then r
    else imap (λ cIdx cell,
           if bool_decide (Z.of_nat cIdx ≠ col) then cell
           else {| question := question cell;
                   checked := negb (checked cell) |}) r) prev.

(** The cell written at the target: [{ ...cell, checked: !cell.checked }]. *)
Definition flipCell (cell : BingoCell) : BingoCell :=
  {| question := question cell; checked := negb (checked cell) |}.

(** The sequence of question texts of a board, row after row. *)
Definition boardQuestions (board : Board) : list JsString :=
  question <$> concat board.

(** ** Values delivered by JSON.parse *)

#[local] Set Warnings "-register-all".

Inductive JsValue :=
  | JNull
  | JBool (b : bool)
  | JNum (bits : N)   (* a double, by its bit pattern; never inspected *)
  | JStr (s : JsString)
  | JArr (items : list JsValue)
  | JObj (props : list (JsString * JsValue)).

(** The JavaScript value of a typed cell and of a typed board, as
    [JSON.parse (JSON.stringify board)] gives it back. *)
Definition ofCell (cell : BingoCell) : JsValue :=
  JObj [(js "question", JStr (question cell));
        (js "checked", JBool (checked cell))].

Definition ofBoard (board : Board) : JsValue :=
  JArr ((λ row, JArr (ofCell <$> row)) <$> board).

(** Own data property of an object literal; JSON.parse delivers each key
    once. [None] is [undefined]. *)
Fixpoint propLookup (name : JsString) (props : list (JsString * JsValue))
  : option JsValue :=
  match props with
  | [] => None
  | (k, v) :: rest => if bool_decide (k = name) then Some v
                      else propLookup name rest
  end.

(** [cell.question]: a TypeError on [null], the own property of an object,
    [undefined] on every other value (no prototype has a [question]). *)
Definition getQuestion (cell : JsValue) : option (option JsValue) :=
  match cell with
  | JNull => None
  | JObj props => Some (propLookup (js "question") props)
  | _ => Some None
  end.

(** [cell.checked], read the same way. *)
Definition getChecked (cell : JsValue) : option (option JsValue) :=
  match cell with
  | JNull => None
  | JObj props => Some (propLookup (js "checked") props)
  | _ => Some None
  end.

(** [items.flat()]: one level of nested arrays is spliced in. *)
Definition flat (items : list JsValue) : list JsValue :=
  items ≫= (λ v, match v with JArr inner => inner | _ => [v] end).

(** [parsed.flat().map((cell) => cell.question)]. Only an array has a
    callable [flat]; the call throws on every other value. *)
Definition flatSavedOf (parsed : JsValue) : option (list (option JsValue)) :=
  match parsed with
  | JArr items => mapM getQuestion (flat items)
  | _ => None
  end.

(** [q === v] for a string [q] and a value [v] that may be [undefined]. *)
Definition strictEqStr (q : JsString) (v : option JsValue) : bool :=
  match v with
  | Some (JStr s) => bool_decide (q = s)
  | _ => false
  end.

(** [value[r][c]] on a JavaScript value, [None] when it is [undefined]. *)
Definition jsCellAt (v : JsValue) (r c : nat) : option JsValue :=
  match v with
  | JArr rows =>
      match rows !! r with
      | Some (JArr cells) => cells !! c
      | _ => None
      end
  | _ => None
  end.

(** ** Strings: trim and includes *)

(** WhiteSpace and LineTerminator code units of ECMAScript. *)
Definition isWhiteSpace (c : N) : bool :=
  bool_decide (c ∈ [9; 10; 11; 12; 13; 32; 160; 5760; 8192; 8193; 8194;
                    8195; 8196; 8197; 8198; 8199; 8200; 8201; 8202; 8232;
                    8233; 8239; 8287; 12288; 65279]%N).

Fixpoint trimStart (s : JsString) : JsString :=
  match s with
  | [] => []
  | c :: rest => if isWhiteSpace c then trimStart rest else s
  end.

Definition trim (s : JsString) : JsString :=
  reverse (trimStart (reverse (trimStart s))).

Fixpoint startsWith (s t : JsString) : bool :=
  match t, s with
  | [], _ => true
  | _ :: _, [] => false
  | y :: t', x :: s' => bool_decide (x = y) && startsWith s' t'
  end.

(** [s.includes(t)] *)
Fixpoint includes (s t : JsString) : bool :=
  startsWith s t ||
  match s with
  | [] => false
  | _ :: s' => includes s' t
  end.

(** [toLowerCase] restricted to text whose letters are ASCII; it serves as
    the case folding in the worked examples. *)
Definition asciiLower (s : JsString) : JsString :=
  (λ c, if ((65 <=? c) && (c <=? 90))%N then (c + 32)%N else c) <$> s.

(** ** Application state *)

Inductive Theme := light | dark.

Global Instance Theme_eq_dec : EqDecision Theme.
Proof. solve_decision. Defined.

Definition themeName (t : Theme) : JsString :=
  match t with light => js "light" | dark => js "dark" end.

Record Modal := mkModal {
  open : bool; m_question : JsString; row : Z; col : Z }.

(** [boardId] stands for the identity of the board array: React compares
    the dependency [board] of an effect with [Object.is]. *)
Record AppState := mkApp {
  board : Board; boardId : nat; modal : Modal;
  search : JsString; theme : Theme }.

Definition LOCAL_STORAGE_KEY : JsString := js "bingo-board-state".
Definition THEME_KEY : JsString := js "bingo-theme".

Record World := mkWorld {
  app : AppState; localStorage : gmap JsString JsString }.

(** App.tsx, lines 455-467. [prev.map] always builds a new array. *)
Definition onModalCheckHandler (st : AppState) : AppState :=
  if bool_decide (row (modal st) = (-1)%Z) || bool_decide (col (modal st) = (-1)%Z)
  then st
  else {| board := toggleCell (row (modal st)) (col (modal st)) (board st);
          boardId := S (boardId st);
          modal := {| open := false; m_question := m_question (modal st);
                      row := row (modal st); col := col (modal st) |};
          search := search st; theme := theme st |}.

(** App.tsx, lines 451-453. *)
Definition onModalCloseHandler (st : AppState) : AppState :=
  {| board := board st; boardId := boardId st;
     modal := {| open := false; m_question := []; row := (-1)%Z; col := (-1)%Z |};
     search := search st; theme := theme st |}.

(** App.tsx, lines 432-439. A read of [board[row][col]] that fails throws. *)
Definition onCellClickHandler (r c : nat) (st : AppState) : option AppState :=
  cell ← cellAt (board st) r c;
  Some {| board := board st; boardId := boardId st;
          modal := {| open := true; m_question := question cell;
                      row := Z.of_nat r; col := Z.of_nat c |};
          search := search st; theme := theme st |}.

(** App.tsx, lines 469-471. *)
Definition onThemeToggleHandler (st : AppState) : AppState :=
  {| board := board st; boardId := boardId st; modal := modal st;
     search := search st;
     theme := match theme st with light => dark | dark => light end |}.

Section Platform.

(** [questions.json], [JSON.parse] ([None] for a SyntaxError),
    [JSON.stringify] and [String.prototype.toLowerCase]. *)
Variable questionsData : list Question.
Variable JSON_parse : JsString → option JsValue.
Variable JSON_stringify : JsValue → JsString.
Variable toLowerCase : JsString → JsString.

(** The grid built when nothing is adopted (App.tsx, lines 401-406);
    [questionsData[k].question] throws when [k] is out of range. *)
Definition freshBoard : option Board :=
  mapM (λ r,
    mapM (λ c,
      q ← questionsData !! (r * 5 + c);
      Some {| question := q_question q; checked := false |}) (seq 0 5))
    (seq 0 5).

(** The body of the [try] block (App.tsx, lines 387-395): [Some parsed]
    when it returns, [None] when it throws or falls through. *)
Definition tryAdopt (saved : JsString) : option JsValue :=
  parsed ← JSON_parse saved;
  let flatQuestions := q_question <$> questionsData in
  flatSaved ← flatSavedOf parsed;
  ok ← every (λ q i, Some (strictEqStr q (mjoin (flatSaved !! i))))
             0 flatQuestions;
  if ok : bool then Some parsed else None.

(** App.tsx, lines 383-407. [saved] is the result of
    [localStorage.getItem]; [null] and the empty string are falsy. *)
Definition getInitialBoard (saved : option JsString) : option JsValue :=
  let adopted :=
    match saved with
    | Some (c :: s) => tryAdopt (c :: s)
    | _ => None
    end in
  match adopted with
  | Some parsed => Some parsed
  | None => ofBoard <$> freshBoard
  end.

(** The two effects (App.tsx, lines 420-426), run after a state change:
    each writes its slot when its dependency changed. *)
Definition runEffects (before after : AppState)
    (ls : gmap JsString JsString) : gmap JsString JsString :=
  let ls1 :=
    if bool_decide (boardId before = boardId after) then ls
    else <[LOCAL_STORAGE_KEY := JSON_stringify (ofBoard (board after))]> ls in
  if bool_decide (theme before = theme after) then ls1
  else <[THEME_KEY := themeName (theme after)]> ls1.

(** One user event: the handler, then the effects. *)
Definition dispatch (handler : AppState → AppState) (w : World) : World :=
  {| app := handler (app w);
     localStorage := runEffects (app w) (handler (app w)) (localStorage w) |}.

(** The search filter (App.tsx, lines 615-621): the cell is rendered
    unless [searchText && !question.toLowerCase().includes(searchText)]. *)
Definition cellVisible (search : JsString) (cell : BingoCell) : bool :=
  let searchText := toLowerCase (trim search) in
  negb (bool_decide (searchText ≠ [])
        && negb (includes (toLowerCase (question cell)) searchText)).

End Platform.

(** ** Further handlers, the theme loader and the modal's texts *)

(** App.tsx, lines 372-381. [saved] is the result of
    [localStorage.getItem(THEME_KEY)]; [matchMedia] is [None] when
    [window.matchMedia] is missing and otherwise the [matches] flag of the
    query [(prefers-color-scheme: dark)]. *)
Definition getInitialTheme (saved : option JsString)
    (matchMedia : option bool) : Theme :=
  if bool_decide (saved = Some (js "dark")) then dark
  else if bool_decide (saved = Some (js "light")) then light
  else match matchMedia with
       | Some true => dark
       | _ => light
       end.

(** App.tsx, lines 428-430; [value] is [e.target.value]. *)
Definition onSearchChangeHandler (value : JsString) (st : AppState)
  : AppState :=
  {| board := board st; boardId := boardId st; modal := modal st;
     search := value; theme := theme st |}.

(** App.tsx, lines 441-449; [key] is [e.key]. *)
Definition onCellKeyDownHandler (r c : nat) (key : JsString) (st : AppState)
  : option AppState :=
  if bool_decide (key = js "Enter") || bool_decide (key = js " ")
  then onCellClickHandler r c st
  else Some st.

(** The heading of the modal (App.tsx, lines 715-717):
    [modal.row !== -1 && modal.col !== -1
       ? board[modal.row][modal.col].question : ""]. *)
Definition modalTitle (st : AppState) : option JsString :=
  if bool_decide (row (modal st) ≠ (-1)%Z)
     && bool_decide (col (modal st) ≠ (-1)%Z)
  then cells ← getIdx (board st) (row (modal st));
       cell ← getIdx cells (col (modal st));
       Some (question cell)
  else Some [].

(** The caption of the check button (App.tsx, lines 735-739). *)
Definition checkButtonLabel (st : AppState) : option JsString :=
  if bool_decide (row (modal st) ≠ (-1)%Z)
     && bool_decide (col (modal st) ≠ (-1)%Z)
  then cells ← getIdx (board st) (row (modal st));
       cell ← getIdx cells (col (modal st));
       Some (if checked cell then js "Uncheck" else js "Check")
  else Some (js "Check").

(** The number of checked cells of a board. *)
Definition checkedCount (board : Board) : nat :=
  foldr (λ cell n, Nat.b2n (checked cell) + n) 0 (concat board).

Section Events.

Variable JSON_stringify : JsValue → JsString.

(** The effects as they run after the first render: both write. *)
Definition mountEffects (st : AppState) (ls : gmap JsString JsString)
  : gmap JsString JsString :=
  <[THEME_KEY := themeName (theme st)]>
    (<[LOCAL_STORAGE_KEY := JSON_stringify (ofBoard (board st))]> ls).

Definition mount (st : AppState) (ls : gmap JsString JsString) : World :=
  {| app := st; localStorage := mountEffects st ls |}.

(** The user events of the page. *)
Inductive Event :=
  | CellClick (r c : nat)
  | CellKeyDown (r c : nat) (key : JsString)
  | ModalCheck
  | ModalClose
  | ThemeToggle
  | SearchChange (value : JsString).

(** The handler bound to an event; [None] when it throws. *)
Definition handle (e : Event) (st : AppState) : option AppState :=
  match e with
  | CellClick r c => onCellClickHandler r c st
  | CellKeyDown r c key => onCellKeyDownHandler r c key st
  | ModalCheck => Some (onModalCheckHandler st)
  | ModalClose => Some (onModalCloseHandler st)
  | ThemeToggle => Some (onThemeToggleHandler st)
  | SearchChange value => Some (onSearchChangeHandler value st)
  end.

(** One event: its handler, then the effects. *)
Definition step (e : Event) (w : World) : option World :=
  after ← handle e (app w);
  Some {| app := after;
          localStorage :=
            runEffects JSON_stringify (app w) after (localStorage w) |}.

Fixpoint run (events : list Event) (w : World) : option World :=
  match events with
  | [] => Some w
  | e :: rest => w' ← step e w; run rest w'
  end.

(** The store mirrors the state: each slot holds what its effect writes
    for the state in memory. *)
Definition inSync (w : World) : Prop :=
  localStorage w !! LOCAL_STORAGE_KEY
    = Some (JSON_stringify (ofBoard (board (app w)))) ∧
  localStorage w !! THEME_KEY = Some (themeName (theme (app w))).

End Events.

(** ** Agreement of a flattened question sequence with the catalog *)

(** [flatSaved] carries the catalog's question at each catalog position. *)
Definition agreesWith (questionsData : list Question)
    (flatSaved : list (option JsValue)) : Prop :=
  ∀ i q, (q_question <$> questionsData) !! i = Some q →
         mjoin (flatSaved !! i) = Some (JStr q).

(** A parsed value misses the catalog at a catalog position: flattening
    throws, or some catalog position holds something else than the
    catalog's question. This is when the test of the loader fails. *)
Definition missesCatalogPosition (questionsData : list Question)
    (parsed : JsValue) : Prop :=
  ∀ flatSaved, flatSavedOf parsed = Some flatSaved →
    ∃ i q, (q_question <$> questionsData) !! i = Some q ∧
           mjoin (flatSaved !! i) ≠ Some (JStr q).

(** The flattened question sequence that equals the catalog exactly. *)
Definition catalogSequence (questionsData : list Question)
  : list (option JsValue) :=
  (λ q, Some (JStr (q_question q))) <$> questionsData.

(** A parsed value is mismatched against the catalog when its flattened
    question sequence is not the catalog's sequence: flattening throws, or
    the two sequences differ in an entry or in length. *)
Definition mismatched (questionsData : list Question) (parsed : JsValue)
  : Prop :=
  flatSavedOf parsed ≠ Some (catalogSequence questionsData).

(** [value[r][c].checked], [None] when a read on the way fails. *)
Definition jsCheckedAt (v : JsValue) (r c : nat) : option JsValue :=
  cell ← jsCellAt v r c; mjoin (getChecked cell).

(** ** Worked data *)

(** A catalog of 25 questions, [question A] to [question Y]. *)
Definition sampleCatalog : list Question :=
  (λ i, {| q_id := Z.of_nat (S i);
           q_question := js "question " ++ [N.of_nat (65 + i)] |})
  <$> seq 0 25.

(** The board over [sampleCatalog] whose checked cells are the positions
    listed in [marks]; it has [rows] rows of five cells. *)
Definition markedBoard (rows : nat) (marks : list (nat * nat)) : Board :=
  (λ r, (λ c, {| question := js "question " ++ [N.of_nat (65 + (r * 5 + c))];
                 checked := bool_decide ((r, c) ∈ marks) |}) <$> seq 0 5)
  <$> seq 0 rows.

Definition sampleModal (r c : Z) : Modal :=
  {| open := true; m_question := []; row := r; col := c |}.

Definition sampleState (marks : list (nat * nat)) (r c : Z) : AppState :=
  {| board := markedBoard 5 marks; boardId := 0; modal := sampleModal r c;
     search := []; theme := light |}.

(** The JSON text of a board whose questions need no escaping, as
    [JSON.stringify] writes it; code unit 34 is the double quote. *)
Definition quoted (s : JsString) : JsString := [34%N] ++ s ++ [34%N].

Definition cellText (cell : BingoCell) : JsString :=
  js "{" ++ quoted (js "question") ++ js ":" ++ quoted (question cell)
  ++ js "," ++ quoted (js "checked") ++ js ":"
  ++ js (if checked cell then "true" else "false") ++ js "}".

Fixpoint commaSeparated (parts : list JsString) : JsString :=
  match parts with
  | [] => []
  | [part] => part
  | part :: rest => part ++ js "," ++ commaSeparated rest
  end.

Definition boardText (board : Board) : JsString :=
  js "[" ++ commaSeparated
    ((λ cells, js "[" ++ commaSeparated (cellText <$> cells) ++ js "]")
     <$> board) ++ js "]".

(** [JSON.parse] cut down to the one text found in the store. *)
Definition parseOnly (text : JsString) (value : JsValue) (t : JsString)
  : option JsValue :=
  if bool_decide (t = text) then Some value else None.

(** A stored board that holds the catalog's 25 questions in order and,
    after them, a sixth row that repeats the first one. *)
Definition sixRows : Board :=
  markedBoard 5 [(0, 0)] ++ take 1 (markedBoard 5 []).

(** [JSON.stringify] on values that hold no number and no text to escape;
    it serves as the serialiser in the worked examples. *)
Fixpoint jsonText (v : JsValue) : JsString :=
  match v with
  | JNull => js "null"
  | JBool b => js (if b then "true" else "false")
  | JNum _ => []
  | JStr s => quoted s
  | JArr items => js "[" ++ commaSeparated (List.map jsonText items) ++ js "]"
  | JObj props =>
      js "{" ++ commaSeparated
        (List.map (λ kv, quoted kv.1 ++ js ":" ++ jsonText kv.2) props)
      ++ js "}"
  end.

(** A store that holds nothing, and the world of the first render over
    [sampleCatalog] with no cell checked and no cell selected. *)
Definition sampleWorld : World :=
  mount jsonText (sampleState [] (-1) (-1)) ∅.

(** * Properties *)

(** ** Shape of a board *)

Ltac list5 l H :=
  do 5 (destruct l as [|? l]; [by inversion H|]);
  destruct l; [clear H|by inversion H].

Ltac board5 b H :=
  let Hl := fresh "Hl" in let Hr := fresh "Hr" in
  destruct H as [Hl Hr]; list5 b Hl;
  repeat match goal with
  | H : Forall _ (_ :: _) |- _ =>
      let Hx := fresh "Hx" in apply Forall_cons in H as [Hx H]
  | H : Forall _ [] |- _ => clear H
  end;
  repeat match goal with
  | H : length ?r = 5 |- _ => list5 r H
  end.

Lemma every_pure {A} (f : A → nat → option bool) (g : A → nat → bool)
    (idx : nat) (arr : list A) :
  (∀ k x, arr !! k = Some x → f x (idx + k) = Some (g x (idx + k))) →
  every f idx arr = Some (everyB g idx arr).
Proof.
  revert idx. induction arr as [|x rest IH]; intros idx Hf; [done|].
  cbn. pose proof (Hf 0 x eq_refl) as H0. rewrite Nat.add_0_r in H0.
  rewrite H0. cbn. destruct (g x idx); [|done].
  apply IH. intros k y Hk. replace (S idx + k) with (idx + S k) by lia.
  by apply Hf.
Qed.

Lemma forReturn_pure (body : nat → option bool) (g : nat → bool)
    (from count : nat) :
  (∀ i, from ≤ i < from + count → body i = Some (g i)) →
  forReturn body from count = Some (forReturnB g from count).
Proof.
  revert from. induction count as [|k IH]; intros from Hb; [done|].
  cbn. rewrite (Hb from) by lia. cbn. destruct (g from); [done|].
  apply IH. intros i Hi. apply Hb. lia.
Qed.

Section WinDetectorReads.

Variable board : Board.
Hypothesis shape : is5x5 board.

Lemma row_index (k : nat) (row : list BingoCell) :
  board !! k = Some row → k < 5.
Proof.
  destruct shape as [Hl _]. intros Hk%lookup_lt_Some. lia.
Qed.

Lemma cell_exists (k : nat) (row : list BingoCell) (j : nat) :
  board !! k = Some row → j < 5 → ∃ cell, row !! j = Some cell.
Proof.
  destruct shape as [_ Hr]. intros Hk Hj. rewrite Forall_lookup in Hr.
  apply lookup_lt_is_Some. rewrite (Hr k row Hk). exact Hj.
Qed.

Lemma rows_pure :
  forReturn (λ i, row ← board !! i;
                  every (λ cell _, Some (checked cell)) 0 row) 0 5
  = Some (forReturnB (λ i, everyB (λ cell _, checked cell) 0
                              (default [] (board !! i))) 0 5).
Proof.
  apply forReturn_pure with
    (g := λ i, everyB (λ cell _, checked cell) 0 (default [] (board !! i))).
  intros i Hi. destruct (board !! i) as [row|] eqn:E.
  - cbn. by apply every_pure with (g := λ cell _, checked cell).
  - apply lookup_ge_None in E. destruct shape as [Hl _]. lia.
Qed.

Lemma cols_pure :
  forReturn (λ j, every (λ row _, cell ← row !! j; Some (checked cell))
                    0 board) 0 5
  = Some (forReturnB (λ j, everyB (λ row _,
            default false (checked <$> row !! j)) 0 board) 0 5).
Proof.
  apply forReturn_pure with
    (g := λ j, everyB (λ row _, default false (checked <$> row !! j))
                 0 board).
  intros j Hj.
  apply every_pure with
    (g := λ row (_ : nat), default false (checked <$> row !! j)).
  intros k row Hk.
  destruct (cell_exists k row j Hk) as [cell ->]; [lia|done].
Qed.

Lemma diagonal_pure :
  every (λ row idx, cell ← row !! idx; Some (checked cell)) 0 board
  = Some (everyB (λ row idx, default false (checked <$> row !! idx))
            0 board).
Proof.
  apply every_pure with
    (g := λ row idx, default false (checked <$> row !! idx)).
  intros k row Hk. cbn.
  destruct (cell_exists k row k Hk) as [cell ->]; [by eapply row_index|done].
Qed.

Lemma antidiagonal_pure :
  every (λ row idx, cell ← getIdx row (4 - Z.of_nat idx)%Z;
                    Some (checked cell)) 0 board
  = Some (everyB (λ row idx, default false
            (checked <$> getIdx row (4 - Z.of_nat idx)%Z)) 0 board).
Proof.
  apply every_pure with
    (g := λ row idx, default false
            (checked <$> getIdx row (4 - Z.of_nat idx)%Z)).
  intros k row Hk. pose proof (row_index k row Hk) as Hlt.
  unfold getIdx. cbn.
  destruct (Z.ltb_spec (4 - Z.of_nat k) 0) as [?|_]; [lia|].
  destruct (cell_exists k row (Z.to_nat (4 - Z.of_nat k)) Hk)
    as [cell ->]; [lia|done].
Qed.

Lemma isBingo_pure : isBingo board = Some (isBingoB board).
Proof.
  unfold isBingo, isBingoB.
  rewrite rows_pure, cols_pure, diagonal_pure, antidiagonal_pure. cbn.
  repeat match goal with
  | |- context [if ?b then _ else _] => destruct b; [done|]
  end.
  done.
Qed.

End WinDetectorReads.

Lemma isBingoB_lines (board : Board) :
  is5x5 board → isBingoB board = existsb (lineFullb board) bingoLines.
Proof.
  intros H. board5 board H. unfold isBingoB. cbn.
  rewrite ?orb_false_r, <- ?orb_assoc. reflexivity.
Qed.

Lemma lineFullb_spec (board : Board) (line : list (nat * nat)) :
  lineFullb board line = true ↔ lineFull board line.
Proof.
  unfold lineFullb, lineFull. rewrite forallb_forall. split.
  - intros H r c Hin. apply list_elem_of_In in Hin. specialize (H _ Hin).
    cbn in H. by destruct (checkedAt board r c) as [[]|].
  - intros H [r c] Hin. apply list_elem_of_In in Hin. cbn.
    by rewrite (H r c Hin).
Qed.

Lemma bingoLines_count : length bingoLines = 12.
Proof. reflexivity. Qed.

(** C1 (amended). On a 5x5 board [isBingo] returns a boolean, and that
    boolean is true exactly when one of the lines has all five of its cells
    checked; the lines are the five rows, the five columns, the main
    diagonal and the anti-diagonal, which makes twelve of them. *)
Theorem isBingo_iff_full_line (board : Board) :
  is5x5 board →
  length bingoLines = 12 ∧
  ∃ v : bool, isBingo board = Some v ∧
    (v = true ↔ ∃ line, line ∈ bingoLines ∧ lineFull board line).
Proof.
  intros H. split; [reflexivity|].
  exists (isBingoB board). split; [by apply isBingo_pure|].
  rewrite (isBingoB_lines _ H), existsb_exists. split.
  - intros (line & Hin & Hfull). exists line.
    split; [by apply list_elem_of_In|by apply lineFullb_spec].
  - intros (line & Hin & Hfull). exists line.
    split; [by apply list_elem_of_In|by apply lineFullb_spec].
Qed.

Lemma isBingo_sample_witness :
  is5x5 (markedBoard 5 (rowLine 2)) ∧
  length bingoLines = 12 ∧
  ∃ v : bool, isBingo (markedBoard 5 (rowLine 2)) = Some v ∧
    (v = true ↔
     ∃ line, line ∈ bingoLines ∧ lineFull (markedBoard 5 (rowLine 2)) line).
Proof.
  assert (H : is5x5 (markedBoard 5 (rowLine 2))) by (by apply (bool_decide_unpack _); vm_compute).
  split; [exact H|]. exact (isBingo_iff_full_line _ H).
Defined.

(** The twelve lines are different from one another; the board on which
    exactly one of them is checked is a win and fills no other line. *)
Lemma bingoLines_decisive :
  NoDup bingoLines ∧
  Forall (λ line,
    isBingo (markedBoard 5 line) = Some true ∧
    Forall (λ other, lineFullb (markedBoard 5 line) other = true → other = line)
      bingoLines) bingoLines.
Proof.
  split; by apply (bool_decide_unpack _); vm_compute.
Qed.

Lemma markedBoard_shape (marks : list (nat * nat)) :
  is5x5 (markedBoard 5 marks).
Proof. split; [reflexivity|]. repeat constructor. Qed.

(** C1, as stated, counts eleven lines. No eleven of the listed lines
    decide [isBingo]: any choice of eleven leaves out a line, and the board
    on which just that line is checked is a win although none of the
    chosen lines is full. *)
Lemma no_eleven_lines_decide :
  ¬ ∃ lines : list (list (nat * nat)),
      length lines = 11 ∧
      (∀ line, line ∈ lines → line ∈ bingoLines) ∧
      ∀ board, is5x5 board →
        (isBingo board = Some true ↔
         ∃ line, line ∈ lines ∧ lineFull board line).
Proof.
  intros (lines & Hlen & Hsub & Hiff).
  destruct bingoLines_decisive as [Hnodup Hdecisive].
  destruct (decide (Forall (λ line, line ∈ lines) bingoLines)) as [Hall|Hmiss].
  - rewrite Forall_forall in Hall.
    pose proof (submseteq_length _ _ (NoDup_submseteq _ _ Hnodup Hall)) as Hle.
    rewrite bingoLines_count, Hlen in Hle. lia.
  - apply not_Forall_Exists in Hmiss; [|apply _].
    apply Exists_exists in Hmiss as (missing & Hin & Hout).
    rewrite Forall_forall in Hdecisive.
    destruct (Hdecisive missing Hin) as [Hwin Honly].
    destruct (Hiff _ (markedBoard_shape missing)) as [Hto _].
    destruct (Hto Hwin) as (line & Hline & Hfull).
    rewrite Forall_forall in Honly.
    apply lineFullb_spec in Hfull.
    apply Hout. by rewrite <- (Honly line (Hsub line Hline) Hfull).
Qed.

(** ** Toggle *)

Lemma flipCell_involutive (cell : BingoCell) : flipCell (flipCell cell) = cell.
Proof. destruct cell as [q []]; reflexivity. Qed.

Lemma cellAt_toggleCell (row col : Z) (prev : Board) (r c : nat) :
  cellAt (toggleCell row col prev) r c =
  (if bool_decide (Z.of_nat r = row ∧ Z.of_nat c = col)
   then flipCell else id) <$> cellAt prev r c.
Proof.
  unfold cellAt, toggleCell. rewrite list_lookup_imap.
  destruct (prev !! r) as [cells|]; cbn; [|done].
  case_bool_decide as Hr; cbn.
  - rewrite bool_decide_eq_false_2 by tauto. by rewrite option_fmap_id.
  - rewrite list_lookup_imap.
    destruct (cells !! c) as [cell|]; cbn; [|done].
    case_bool_decide as Hc; cbn.
    + by rewrite bool_decide_eq_false_2 by tauto.
    + by rewrite bool_decide_eq_true_2.
Qed.

Lemma board_ext (b1 b2 : Board) :
  (∀ r c, cellAt b1 r c = cellAt b2 r c) →
  length b1 = length b2 →
  (∀ r row1 row2, b1 !! r = Some row1 → b2 !! r = Some row2 →
     length row1 = length row2) →
  b1 = b2.
Proof.
  intros Hcell Hlen Hrows. apply list_eq_same_length with (length b1); try done.
  intros r row1 row2 _ H1 H2. apply list_eq. intros c.
  specialize (Hcell r c). unfold cellAt in Hcell.
  by rewrite H1, H2 in Hcell.
Qed.

Lemma toggleCell_involutive (row col : Z) (prev : Board) :
  toggleCell row col (toggleCell row col prev) = prev.
Proof.
  apply board_ext.
  - intros r c. rewrite !cellAt_toggleCell.
    destruct (cellAt prev r c) as [cell|]; cbn; [|done].
    case_bool_decide; cbn; [by rewrite flipCell_involutive|done].
  - unfold toggleCell. by rewrite !length_imap.
  - unfold toggleCell. intros r row1 row2.
    rewrite !list_lookup_imap. intros H1 H2. rewrite H2 in H1. cbn in H1.
    case_bool_decide; simplify_eq/=; by rewrite ?length_imap.
Qed.

Lemma toggleCell_shape (row col : Z) (prev : Board) :
  is5x5 prev → is5x5 (toggleCell row col prev).
Proof.
  intros [Hl Hr]. unfold toggleCell. split; [by rewrite length_imap|].
  rewrite Forall_lookup in Hr. apply Forall_lookup. intros r cells.
  rewrite list_lookup_imap. destruct (prev !! r) as [old|] eqn:E; [|done].
  cbn. intros [= <-]. case_bool_decide; rewrite ?length_imap; by eapply Hr.
Qed.

Lemma fmap_concat {A B} (f : A → B) (ls : list (list A)) :
  f <$> concat ls = concat ((λ l : list A, f <$> l) <$> ls).
Proof.
  induction ls as [|l ls IH]; [done|]. cbn. by rewrite fmap_app, IH.
Qed.

Lemma toggleCell_questions (row col : Z) (prev : Board) :
  boardQuestions (toggleCell row col prev) = boardQuestions prev.
Proof.
  unfold boardQuestions, toggleCell. rewrite !fmap_concat. f_equal.
  apply list_eq. intros i.
  rewrite !list_lookup_fmap, list_lookup_imap.
  destruct (prev !! i) as [cells|]; cbn; [|done]. f_equal.
  case_bool_decide; [done|]. apply list_eq. intros j.
  rewrite !list_lookup_fmap, list_lookup_imap.
  destruct (cells !! j); cbn; [|done]. by case_bool_decide.
Qed.

Lemma onModalCheckHandler_selected (st : AppState) :
  row (modal st) ≠ (-1)%Z → col (modal st) ≠ (-1)%Z →
  onModalCheckHandler st =
  {| board := toggleCell (row (modal st)) (col (modal st)) (board st);
     boardId := S (boardId st);
     modal := {| open := false; m_question := m_question (modal st);
                 row := row (modal st); col := col (modal st) |};
     search := search st; theme := theme st |}.
Proof.
  intros Hrow Hcol. unfold onModalCheckHandler.
  by rewrite !bool_decide_eq_false_2 by done.
Qed.

(** C5. With a 5x5 board and the modal on an in-range cell, the check
    handler flips [checked] on the cell at (row, col), keeps its question,
    and leaves every other position of the board as it was. *)
Theorem onModalCheckHandler_flips_one (st : AppState) :
  is5x5 (board st) →
  (0 ≤ row (modal st) ≤ 4)%Z →
  (0 ≤ col (modal st) ≤ 4)%Z →
  let after := board (onModalCheckHandler st) in
  (∃ cell,
     cellAt (board st) (Z.to_nat (row (modal st))) (Z.to_nat (col (modal st)))
       = Some cell ∧
     cellAt after (Z.to_nat (row (modal st))) (Z.to_nat (col (modal st)))
       = Some {| question := question cell;
                 checked := negb (checked cell) |}) ∧
  (∀ r c, ¬ (Z.of_nat r = row (modal st) ∧ Z.of_nat c = col (modal st)) →
     cellAt after r c = cellAt (board st) r c) ∧
  is5x5 after.
Proof.
  intros Hshape Hrow Hcol after. subst after.
  rewrite onModalCheckHandler_selected by lia. cbn [board].
  split; [|split].
  - destruct (cellAt (board st) (Z.to_nat (row (modal st)))
                (Z.to_nat (col (modal st)))) as [cell|] eqn:E.
    + exists cell. split; [done|]. rewrite cellAt_toggleCell, E.
      rewrite bool_decide_eq_true_2 by lia. reflexivity.
    + exfalso. unfold cellAt in E. destruct Hshape as [Hl Hr].
      destruct (board st !! Z.to_nat (row (modal st))) as [cells|] eqn:Er.
      * cbn in E. apply lookup_ge_None in E.
        rewrite Forall_lookup in Hr. rewrite (Hr _ _ Er) in E. lia.
      * apply lookup_ge_None in Er. lia.
  - intros r c Hne. rewrite cellAt_toggleCell.
    rewrite bool_decide_eq_false_2 by done. by rewrite option_fmap_id.
  - by apply toggleCell_shape.
Qed.

Lemma onModalCheckHandler_flips_one_witness :
  let st := sampleState [(0, 0); (3, 1)] 3 1 in
  let after := board (onModalCheckHandler st) in
  cellAt after 3 1 = Some {| question := js "question Q"; checked := false |} ∧
  ∀ r c, ¬ (Z.of_nat r = 3%Z ∧ Z.of_nat c = 1%Z) →
    cellAt after r c = cellAt (board st) r c.
Proof.
  intros st after.
  assert (Hshape : is5x5 (board st)) by (by apply (bool_decide_unpack _); vm_compute).
  assert (Hrow : (0 ≤ row (modal st) ≤ 4)%Z) by (cbn; lia).
  assert (Hcol : (0 ≤ col (modal st) ≤ 4)%Z) by (cbn; lia).
  destruct (onModalCheckHandler_flips_one st Hshape Hrow Hcol)
    as ((cell & Hbefore & Hafter) & Hframe & _).
  split; [|exact Hframe].
  vm_compute in Hbefore. injection Hbefore as <-. exact Hafter.
Defined.

(** C6. With the modal on an in-range cell, running the check handler twice
    gives back the board it started from, at every position. *)
Theorem onModalCheckHandler_twice (st : AppState) :
  (0 ≤ row (modal st) ≤ 4)%Z →
  (0 ≤ col (modal st) ≤ 4)%Z →
  board (onModalCheckHandler (onModalCheckHandler st)) = board st.
Proof.
  intros Hrow Hcol.
  rewrite (onModalCheckHandler_selected (onModalCheckHandler st));
    rewrite (onModalCheckHandler_selected st); cbn; try lia.
  apply toggleCell_involutive.
Qed.

Lemma onModalCheckHandler_twice_witness :
  board (onModalCheckHandler (onModalCheckHandler (sampleState [(2, 2)] 0 0)))
  = markedBoard 5 [(2, 2)].
Proof.
  apply (onModalCheckHandler_twice (sampleState [(2, 2)] 0 0)); cbn; lia.
Defined.

(** C10. When the modal holds a sentinel coordinate (row = -1 or col = -1)
    the check handler returns at once: the board, and with it the whole
    state, stays as it was. *)
Theorem onModalCheckHandler_no_selection (st : AppState) :
  row (modal st) = (-1)%Z ∨ col (modal st) = (-1)%Z →
  board (onModalCheckHandler st) = board st ∧ onModalCheckHandler st = st.
Proof.
  intros Hsentinel. unfold onModalCheckHandler.
  destruct Hsentinel as [-> | ->]; cbn; [done|].
  by rewrite orb_true_r.
Qed.

Lemma onModalCheckHandler_no_selection_witness :
  board (onModalCheckHandler (sampleState [(1, 1)] (-1) (-1)))
  = markedBoard 5 [(1, 1)].
Proof.
  apply (onModalCheckHandler_no_selection (sampleState [(1, 1)] (-1) (-1))).
  left. reflexivity.
Defined.

(** C9. The win detectors of the two revisions agree: on every 5x5 board
    both return, and they return the same boolean. *)
Theorem isBingo_revisions_agree (board : Board) :
  is5x5 board →
  ∃ v : bool, Earlier.isBingo board = Some v ∧ isBingo board = Some v.
Proof.
  intros H. exists (isBingoB board).
  split; [exact (isBingo_pure board H)|exact (isBingo_pure board H)].
Qed.

Lemma isBingo_revisions_agree_witness :
  ∃ v : bool,
    Earlier.isBingo (markedBoard 5 antiDiagonal) = Some v ∧
    isBingo (markedBoard 5 antiDiagonal) = Some v.
Proof.
  apply isBingo_revisions_agree. by apply (bool_decide_unpack _); vm_compute.
Defined.

Section ThemeStore.

Variable JSON_stringify : JsValue → JsString.

Lemma dispatch_theme_slot (w : World) :
  localStorage (dispatch JSON_stringify onThemeToggleHandler w) !! THEME_KEY
  = Some (themeName (theme (app (dispatch JSON_stringify onThemeToggleHandler w)))).
Proof.
  unfold dispatch, runEffects, onThemeToggleHandler.
  cbn [app localStorage theme boardId].
  rewrite bool_decide_eq_false_2 by (by destruct (theme (app w))).
  by rewrite lookup_insert_eq.
Qed.

(** C8. From either theme, two toggles lead back to the starting theme,
    and after each of the two toggles the theme slot of the local storage
    holds the name of the theme in memory. *)
Theorem theme_toggle_twice (w : World) :
  let w1 := dispatch JSON_stringify onThemeToggleHandler w in
  let w2 := dispatch JSON_stringify onThemeToggleHandler w1 in
  theme (app w2) = theme (app w) ∧
  localStorage w1 !! THEME_KEY = Some (themeName (theme (app w1))) ∧
  localStorage w2 !! THEME_KEY = Some (themeName (theme (app w2))).
Proof.
  intros w1 w2. split; [|split].
  - subst w1 w2. unfold dispatch, onThemeToggleHandler.
    cbn [app theme]. by destruct (theme (app w)).
  - apply dispatch_theme_slot.
  - apply dispatch_theme_slot.
Qed.

End ThemeStore.

(** ** Loading the board *)

Lemma everyB_true {A} (g : A → nat → bool) (idx : nat) (arr : list A) :
  everyB g idx arr = true ↔
  ∀ k x, arr !! k = Some x → g x (idx + k) = true.
Proof.
  revert idx. induction arr as [|x rest IH]; intros idx; cbn.
  - split; [intros _ k y Hk; by destruct k|done].
  - rewrite andb_true_iff, IH. split.
    + intros [Hx Hrest] [|k] y Hk; cbn in Hk.
      * simplify_eq. by rewrite Nat.add_0_r.
      * replace (idx + S k) with (S idx + k) by lia. by apply Hrest.
    + intros H. split.
      * specialize (H 0 x eq_refl). by rewrite Nat.add_0_r in H.
      * intros k y Hk. replace (S idx + k) with (idx + S k) by lia.
        by apply H.
Qed.

Lemma strictEqStr_true (q : JsString) (v : option JsValue) :
  strictEqStr q v = true ↔ v = Some (JStr q).
Proof.
  unfold strictEqStr. destruct v as [[]|]; try (split; [done|congruence]).
  rewrite bool_decide_eq_true. split; congruence.
Qed.

Lemma getQuestion_ofCell (cell : BingoCell) :
  getQuestion (ofCell cell) = Some (Some (JStr (question cell))).
Proof. reflexivity. Qed.

Lemma flat_cells (board : Board) :
  flat ((λ row, JArr (ofCell <$> row)) <$> board) = ofCell <$> concat board.
Proof.
  unfold flat. induction board as [|cells rest IH]; [done|].
  cbn. rewrite fmap_app. f_equal. exact IH.
Qed.

Lemma flatSavedOf_ofBoard (board : Board) :
  flatSavedOf (ofBoard board)
  = Some ((λ q, Some (JStr q)) <$> boardQuestions board).
Proof.
  unfold flatSavedOf, ofBoard, boardQuestions. rewrite flat_cells.
  induction (concat board) as [|cell cells IH]; [done|].
  cbn. cbn in IH. by rewrite IH.
Qed.

Section Loader.

Variable questionsData : list Question.
Variable JSON_parse : JsString → option JsValue.

Lemma catalog_test (flatSaved : list (option JsValue)) :
  ∃ ok : bool,
    every (λ q i, Some (strictEqStr q (mjoin (flatSaved !! i))))
          0 (q_question <$> questionsData) = Some ok ∧
    (ok = true ↔ agreesWith questionsData flatSaved).
Proof.
  eexists. split.
  - by apply every_pure with
      (g := λ q i, strictEqStr q (mjoin (flatSaved !! i))).
  - rewrite everyB_true. unfold agreesWith. split.
    + intros H i q Hq. apply strictEqStr_true. exact (H i q Hq).
    + intros H i q Hq. apply strictEqStr_true. exact (H i q Hq).
Qed.

Lemma tryAdopt_Some (text : JsString) (parsed : JsValue) :
  tryAdopt questionsData JSON_parse text = Some parsed ↔
  JSON_parse text = Some parsed ∧
  ∃ flatSaved, flatSavedOf parsed = Some flatSaved ∧
               agreesWith questionsData flatSaved.
Proof.
  unfold tryAdopt. destruct (JSON_parse text) as [j|]; cbn;
    [|split; [done|by intros [? _]]].
  destruct (flatSavedOf j) as [fs|] eqn:Efs; cbn; cycle 1.
  { split; [done|]. intros ([= <-] & fs' & Hfs' & _). congruence. }
  destruct (catalog_test fs) as (ok & -> & Hok). cbn.
  destruct ok.
  - split; [|by intros [-> _]]. intros [= <-]. split; [done|].
    exists fs. split; [done|]. by apply Hok.
  - split; [done|]. intros ([= <-] & fs' & Hfs' & Hagree).
    rewrite Efs in Hfs'. simplify_eq. by apply Hok in Hagree.
Qed.

Lemma tryAdopt_None (text : JsString) :
  (JSON_parse text = None ∨
   ∃ parsed, JSON_parse text = Some parsed ∧
             missesCatalogPosition questionsData parsed) →
  tryAdopt questionsData JSON_parse text = None.
Proof.
  intros H.
  destruct (tryAdopt questionsData JSON_parse text) as [j|] eqn:E; [|done].
  apply tryAdopt_Some in E as (Hparse & fs & Hfs & Hagree).
  destruct H as [H|(j' & Hj' & Hmis)]; [congruence|].
  rewrite Hparse in Hj'. simplify_eq.
  destruct (Hmis fs Hfs) as (i & q & Hq & Hne). by specialize (Hagree i q Hq).
Qed.

End Loader.

(** The grid built from a catalog of 25 questions. *)
Lemma freshBoard_grid (catalog : list Question) :
  length catalog = 25 →
  ∃ grid : Board,
    freshBoard catalog = Some grid ∧ is5x5 grid ∧
    boardQuestions grid = q_question <$> catalog ∧
    ∀ r c, r < 5 → c < 5 →
      ∃ q, catalog !! (r * 5 + c) = Some q ∧
           cellAt grid r c
           = Some {| question := q_question q; checked := false |}.
Proof.
  intros Hlen.
  do 25 (destruct catalog as [|? catalog]; [by inversion Hlen|]).
  destruct catalog; [clear Hlen|by inversion Hlen].
  eexists. split; [reflexivity|]. split; [|split].
  - by apply (bool_decide_unpack _); vm_compute.
  - reflexivity.
  - intros r c Hr Hc.
    do 5 (destruct r as [|r];
      [do 5 (destruct c as [|c]; [eexists; split; reflexivity|]); lia|]).
    lia.
Qed.

Lemma jsCheckedAt_ofBoard (board : Board) (r c : nat) :
  jsCheckedAt (ofBoard board) r c = JBool <$> checkedAt board r c.
Proof.
  unfold jsCheckedAt, jsCellAt, ofBoard, checkedAt, cellAt.
  rewrite list_lookup_fmap. destruct (board !! r) as [cells|]; cbn; [|done].
  rewrite list_lookup_fmap. by destruct (cells !! c).
Qed.

Lemma agreesWith_questions (catalog : list Question) (board : Board) :
  length catalog = 25 →
  (∀ i, i < 25 → boardQuestions board !! i = (q_question <$> catalog) !! i) →
  agreesWith catalog ((λ q, Some (JStr q)) <$> boardQuestions board).
Proof.
  intros Hlen Hsame i q Hq.
  assert (i < 25) as Hi.
  { apply lookup_lt_Some in Hq. by rewrite length_fmap, Hlen in Hq. }
  rewrite list_lookup_fmap, (Hsame i Hi), Hq. reflexivity.
Qed.

(** C3. A persisted 5x5 grid whose question sequence equals the catalog's
    at all 25 positions is adopted as it is: the loaded board is the
    persisted one, and its checked flag at each position is the persisted
    flag of that position. *)
Theorem getInitialBoard_adopts (questionsData : list Question)
    (JSON_parse : JsString → option JsValue)
    (text : JsString) (persisted : Board) :
  length questionsData = 25 →
  is5x5 persisted →
  (∀ i, i < 25 →
     boardQuestions persisted !! i = (q_question <$> questionsData) !! i) →
  text ≠ [] →
  JSON_parse text = Some (ofBoard persisted) →
  ∃ loaded,
    getInitialBoard questionsData JSON_parse (Some text) = Some loaded ∧
    loaded = ofBoard persisted ∧
    ∀ r c, r < 5 → c < 5 →
      ∃ flag : bool, checkedAt persisted r c = Some flag ∧
                     jsCheckedAt loaded r c = Some (JBool flag).
Proof.
  intros Hlen Hshape Hsame Htext Hparse. exists (ofBoard persisted).
  split; [|split; [done|]].
  - unfold getInitialBoard. destruct text as [|c0 text]; [done|].
    assert (tryAdopt questionsData JSON_parse (c0 :: text)
            = Some (ofBoard persisted)) as ->; [|done].
    apply tryAdopt_Some. split; [done|].
    eexists. split; [apply flatSavedOf_ofBoard|].
    by apply agreesWith_questions.
  - intros r c Hr Hc. rewrite jsCheckedAt_ofBoard.
    destruct (checkedAt persisted r c) as [flag|] eqn:E; [by exists flag|].
    exfalso. board5 persisted Hshape.
    do 5 (destruct r as [|r];
      [do 5 (destruct c as [|c]; [done|]); lia|]).
    lia.
Qed.

Lemma getInitialBoard_adopts_witness :
  let persisted := markedBoard 5 [(0, 0); (1, 2)] in
  ∃ loaded,
    getInitialBoard sampleCatalog
      (parseOnly (boardText persisted) (ofBoard persisted))
      (Some (boardText persisted)) = Some loaded ∧
    loaded = ofBoard persisted ∧
    ∀ r c, r < 5 → c < 5 →
      ∃ flag : bool, checkedAt persisted r c = Some flag ∧
                     jsCheckedAt loaded r c = Some (JBool flag).
Proof.
  intros persisted. apply getInitialBoard_adopts.
  - reflexivity.
  - by apply (bool_decide_unpack _); vm_compute.
  - intros i Hi. do 25 (destruct i as [|i]; [reflexivity|]). lia.
  - by vm_compute.
  - unfold parseOnly. by rewrite bool_decide_eq_true_2.
Defined.

(** What the loader discards: a persisted value that is absent, that does
    not parse, or that parses to a value missing the catalog at one of the
    catalog positions. The result is then a fresh 5x5 grid whose cell at
    (row, col) carries the catalog entry of index row*5+col and is
    unchecked. *)
Lemma getInitialBoard_discards (questionsData : list Question)
    (JSON_parse : JsString → option JsValue) (saved : option JsString) :
  length questionsData = 25 →
  (saved = None ∨
   (∃ text, saved = Some text ∧ JSON_parse text = None) ∨
   (∃ text parsed, saved = Some text ∧ JSON_parse text = Some parsed ∧
                   missesCatalogPosition questionsData parsed)) →
  ∃ grid : Board,
    getInitialBoard questionsData JSON_parse saved = Some (ofBoard grid) ∧
    is5x5 grid ∧
    ∀ r c, r < 5 → c < 5 →
      ∃ q, questionsData !! (r * 5 + c) = Some q ∧
           cellAt grid r c
           = Some {| question := q_question q; checked := false |}.
Proof.
  intros Hlen Hcase.
  destruct (freshBoard_grid questionsData Hlen)
    as (grid & Hfresh & Hshape & _ & Hcells).
  exists grid. split; [|by split].
  unfold getInitialBoard.
  assert (match saved with
          | Some (c :: s) => tryAdopt questionsData JSON_parse (c :: s)
          | _ => None
          end = None) as ->; [|by rewrite Hfresh].
  destruct saved as [[|c0 text]|]; [done| |done].
  apply tryAdopt_None.
  destruct Hcase as [?|[(t & [= <-] & Hnone)|(t & j & [= <-] & Hj & Hmis)]].
  - done.
  - by left.
  - right. by exists j.
Qed.

Lemma getInitialBoard_discards_witness :
  let stale := reverse (markedBoard 5 [(4, 4)]) in
  ∃ grid : Board,
    getInitialBoard sampleCatalog (parseOnly (boardText stale) (ofBoard stale))
      (Some (boardText stale)) = Some (ofBoard grid) ∧
    is5x5 grid ∧
    ∀ r c, r < 5 → c < 5 →
      ∃ q, sampleCatalog !! (r * 5 + c) = Some q ∧
           cellAt grid r c
           = Some {| question := q_question q; checked := false |}.
Proof.
  intros stale. apply getInitialBoard_discards; [reflexivity|].
  right. right. exists (boardText stale), (ofBoard stale).
  split; [done|]. split.
  - unfold parseOnly. by rewrite bool_decide_eq_true_2.
  - intros flatSaved. rewrite flatSavedOf_ofBoard. intros [= <-].
    exists 0, (js "question A"). split; [reflexivity|]. by vm_compute.
Defined.

(** Whatever the store holds, the loaded value carries the catalog's
    question at each of the 25 catalog positions of its flattened
    sequence. *)
Lemma getInitialBoard_catalog_positions (questionsData : list Question)
    (JSON_parse : JsString → option JsValue) (saved : option JsString) :
  length questionsData = 25 →
  ∃ loaded flatLoaded,
    getInitialBoard questionsData JSON_parse saved = Some loaded ∧
    flatSavedOf loaded = Some flatLoaded ∧
    agreesWith questionsData flatLoaded.
Proof.
  intros Hlen.
  destruct (freshBoard_grid questionsData Hlen)
    as (grid & Hfresh & _ & Hquestions & _).
  assert (Hgrid : ∃ flatLoaded,
            flatSavedOf (ofBoard grid) = Some flatLoaded ∧
            agreesWith questionsData flatLoaded).
  { eexists. split; [apply flatSavedOf_ofBoard|].
    apply agreesWith_questions; [done|]. intros i _. by rewrite Hquestions. }
  unfold getInitialBoard.
  destruct saved as [[|c0 text]|]; cbn zeta iota;
    try (rewrite Hfresh; destruct Hgrid as (fs & ? & ?);
         by exists (ofBoard grid), fs).
  destruct (tryAdopt questionsData JSON_parse (c0 :: text)) as [j|] eqn:E.
  - apply tryAdopt_Some in E as (_ & fs & Hfs & Hagree). by exists j, fs.
  - rewrite Hfresh. destruct Hgrid as (fs & ? & ?).
    by exists (ofBoard grid), fs.
Qed.

(** C2 at a stored grid of six rows whose first 25 cells repeat the
    catalog: the test of the loader passes, the six rows are returned, and
    the flattened question sequence of the loaded board has 30 entries, so
    it is not the catalog's sequence of 25. *)
Theorem getInitialBoard_keeps_sixth_row
    (JSON_parse : JsString → option JsValue) (text : JsString) :
  text ≠ [] →
  JSON_parse text = Some (ofBoard sixRows) →
  ∃ loaded flatLoaded,
    getInitialBoard sampleCatalog JSON_parse (Some text) = Some loaded ∧
    loaded = ofBoard sixRows ∧
    flatSavedOf loaded = Some flatLoaded ∧
    length flatLoaded = 30 ∧
    flatLoaded ≠ catalogSequence sampleCatalog.
Proof.
  intros Htext Hparse.
  exists (ofBoard sixRows), ((λ q, Some (JStr q)) <$> boardQuestions sixRows).
  split; [|split; [done|split; [apply flatSavedOf_ofBoard|split]]].
  - unfold getInitialBoard. destruct text as [|c0 text]; [done|].
    assert (tryAdopt sampleCatalog JSON_parse (c0 :: text)
            = Some (ofBoard sixRows)) as ->; [|done].
    apply tryAdopt_Some. split; [done|].
    eexists. split; [apply flatSavedOf_ofBoard|].
    intros i q Hq.
    assert (i < 25) as Hi by (by apply lookup_lt_Some in Hq).
    rewrite list_lookup_fmap.
    do 25 (destruct i as [|i]; [by injection Hq as <-|]). lia.
  - reflexivity.
  - intros Heq. by apply (f_equal length) in Heq.
Qed.

Lemma getInitialBoard_keeps_sixth_row_witness :
  ∃ loaded flatLoaded,
    getInitialBoard sampleCatalog
      (parseOnly (boardText sixRows) (ofBoard sixRows))
      (Some (boardText sixRows)) = Some loaded ∧
    loaded = ofBoard sixRows ∧
    flatSavedOf loaded = Some flatLoaded ∧
    length flatLoaded = 30 ∧
    flatLoaded ≠ catalogSequence sampleCatalog.
Proof.
  apply getInitialBoard_keeps_sixth_row.
  - by vm_compute.
  - unfold parseOnly. by rewrite bool_decide_eq_true_2.
Defined.

(** ** Search filter *)

Lemma startsWith_prefix (s t : JsString) :
  startsWith s t = true ↔ ∃ post, s = t ++ post.
Proof.
  revert s. induction t as [|y t IH]; intros [|x s]; cbn.
  - split; [intros _; by exists []|done].
  - split; [intros _; by exists (x :: s)|done].
  - split; [done|]. by intros [post Hpost].
  - rewrite andb_true_iff, bool_decide_eq_true, IH. split.
    + intros [-> [post ->]]. by exists post.
    + intros [post [= -> ->]]. split; [done|]. by exists post.
Qed.

(** [includes] finds exactly the contiguous occurrences. *)
Lemma includes_substring (s t : JsString) :
  includes s t = true ↔ ∃ pre post, s = pre ++ t ++ post.
Proof.
  induction s as [|x s IH].
  - change (includes [] t) with (startsWith [] t || false).
    rewrite orb_true_iff, startsWith_prefix. split.
    + intros [[post Hpost]|?]; [|done]. by exists [], post.
    + intros (pre & post & H). left.
      symmetry in H. apply app_eq_nil in H as [-> H].
      apply app_eq_nil in H as [-> ->]. by exists [].
  - change (includes (x :: s) t) with (startsWith (x :: s) t || includes s t).
    rewrite orb_true_iff, startsWith_prefix, IH. split.
    + intros [[post Hpost]|(pre & post & ->)].
      * by exists [], post.
      * by exists (x :: pre), post.
    + intros ([|y pre] & post & H).
      * left. by exists post.
      * right. injection H as -> ->. by exists pre, post.
Qed.

Lemma trimStart_blank (s : JsString) :
  Forall (λ c, isWhiteSpace c = true) s → trimStart s = [].
Proof.
  induction 1 as [|c s Hc _ IH]; [done|]. cbn. by rewrite Hc.
Qed.

Lemma trim_blank (s : JsString) :
  Forall (λ c, isWhiteSpace c = true) s → trim s = [].
Proof. intros H. unfold trim. by rewrite (trimStart_blank s H). Qed.

Lemma trimStart_split (s : JsString) :
  ∃ pre, s = pre ++ trimStart s ∧ Forall (λ c, isWhiteSpace c = true) pre ∧
         (∀ c, head (trimStart s) = Some c → isWhiteSpace c = false).
Proof.
  induction s as [|c s (pre & Hs & Hpre & Hhead)].
  - exists []. by repeat split.
  - cbn. destruct (isWhiteSpace c) eqn:Ec.
    + exists (c :: pre). split; [by rewrite Hs at 1|].
      split; [by constructor|done].
    + exists []. split; [done|]. split; [constructor|].
      by intros c' [= <-].
Qed.

(** [trim] cuts a run of white space off each end and stops at the first
    code unit that is not white space. *)
Lemma trim_split (s : JsString) :
  ∃ pre post,
    s = pre ++ trim s ++ post ∧
    Forall (λ c, isWhiteSpace c = true) pre ∧
    Forall (λ c, isWhiteSpace c = true) post ∧
    (∀ c, head (trim s) = Some c → isWhiteSpace c = false) ∧
    (∀ c, last (trim s) = Some c → isWhiteSpace c = false).
Proof.
  unfold trim. destruct (trimStart_split s) as (pre & Hs & Hpre & Hhead).
  destruct (trimStart_split (reverse (trimStart s)))
    as (post & Hr & Hpost & Hlast).
  set (core := trimStart (reverse (trimStart s))) in *.
  assert (Hmid : trimStart s = reverse core ++ reverse post).
  { rewrite <- reverse_app, <- Hr. by rewrite reverse_involutive. }
  exists pre, (reverse post). split; [by rewrite <- Hmid|].
  split; [done|]. split; [by apply Forall_reverse|]. split.
  - intros c Hc. apply Hhead. rewrite Hmid.
    destruct (reverse core); [done|exact Hc].
  - intros c Hc. apply Hlast. by rewrite <- last_reverse, Hc.
Qed.

Section SearchFilter.

Variable toLowerCase : JsString → JsString.
Hypothesis toLowerCase_empty : toLowerCase [] = [].

(** C7. A cell is visible exactly when the trimmed query is empty or the
    lower-cased question contains the lower-cased trimmed query as a
    substring; a query of white space only shows every cell. *)
Theorem cellVisible_iff (query : JsString) (cell : BingoCell) :
  (cellVisible toLowerCase query cell = true ↔
     trim query = [] ∨
     ∃ pre post, toLowerCase (question cell)
                 = pre ++ toLowerCase (trim query) ++ post) ∧
  (Forall (λ c, isWhiteSpace c = true) query →
     cellVisible toLowerCase query cell = true).
Proof.
  assert (Hiff : cellVisible toLowerCase query cell = true ↔
     trim query = [] ∨
     ∃ pre post, toLowerCase (question cell)
                 = pre ++ toLowerCase (trim query) ++ post).
  { unfold cellVisible. rewrite negb_true_iff, andb_false_iff.
    rewrite bool_decide_eq_false, negb_false_iff, includes_substring.
    split.
    - intros [Hempty|Hsub]; [|by right].
      apply dec_stable in Hempty. right.
      exists [], (toLowerCase (question cell)). by rewrite Hempty.
    - intros [Hempty|Hsub]; [|by right].
      left. rewrite Hempty, toLowerCase_empty. by intros ?. }
  split; [exact Hiff|].
  intros Hblank. apply Hiff. left. by apply trim_blank.
Qed.

End SearchFilter.

Lemma cellVisible_iff_witness :
  asciiLower [] = [] ∧
  cellVisible asciiLower (js "  BUDGET ")
    {| question := js "discuss the budget report"; checked := false |} = true ∧
  cellVisible asciiLower (js "BUDGET")
    {| question := js "team lunch"; checked := false |} ≠ true.
Proof.
  split; [reflexivity|]. split.
  - destruct (cellVisible_iff asciiLower eq_refl (js "  BUDGET ")
        {| question := js "discuss the budget report"; checked := false |})
      as [Hiff _].
    apply Hiff. right.
    exists (js "discuss the "), (js " report"). reflexivity.
  - by vm_compute.
Defined.

(** * Further properties *)

(** ** Toggle: shape, order, bounds *)

Lemma board_ext_lengths (b1 b2 : Board) :
  (∀ r c, cellAt b1 r c = cellAt b2 r c) →
  length <$> b1 = length <$> b2 →
  b1 = b2.
Proof.
  intros Hcell Hlens. apply board_ext; [done| |].
  - apply (f_equal length) in Hlens. by rewrite !length_fmap in Hlens.
  - intros r row1 row2 H1 H2. apply (f_equal (.!! r)) in Hlens.
    rewrite !list_lookup_fmap, H1, H2 in Hlens. by injection Hlens.
Qed.

Lemma toggleCell_row_lengths (row col : Z) (prev : Board) :
  length <$> toggleCell row col prev = length <$> prev.
Proof.
  unfold toggleCell. apply list_eq. intros r.
  rewrite !list_lookup_fmap, list_lookup_imap.
  destruct (prev !! r) as [cells|]; cbn; [|done].
  case_bool_decide; by rewrite ?length_imap.
Qed.

(** X1. Whatever the modal holds, the check handler keeps the question of
    every cell and the length of every row: the question sequence and the
    shape of the board never change. *)
Theorem onModalCheckHandler_keeps_questions (st : AppState) :
  boardQuestions (board (onModalCheckHandler st)) = boardQuestions (board st) ∧
  length <$> board (onModalCheckHandler st) = length <$> board st.
Proof.
  unfold onModalCheckHandler.
  destruct (bool_decide _ || bool_decide _); [done|]. cbn [board].
  split; [apply toggleCell_questions|apply toggleCell_row_lengths].
Qed.

(** X2. Toggles commute: toggling (r1, c1) and then (r2, c2) gives the
    board that toggling them in the other order gives. *)
Theorem toggleCell_commute (r1 c1 r2 c2 : Z) (prev : Board) :
  toggleCell r2 c2 (toggleCell r1 c1 prev)
  = toggleCell r1 c1 (toggleCell r2 c2 prev).
Proof.
  apply board_ext_lengths.
  - intros r c. rewrite !cellAt_toggleCell.
    destruct (cellAt prev r c) as [cell|]; cbn; [|done].
    by repeat case_bool_decide.
  - by rewrite !toggleCell_row_lengths.
Qed.

(** X3. A toggle whose target is not a cell of the board (a negative
    index, a row or a column past the end) leaves the board as it is. *)
Theorem toggleCell_out_of_range (row col : Z) (prev : Board) :
  (row < 0)%Z ∨ (col < 0)%Z ∨
    cellAt prev (Z.to_nat row) (Z.to_nat col) = None →
  toggleCell row col prev = prev.
Proof.
  intros Hout. apply board_ext_lengths; [|apply toggleCell_row_lengths].
  intros r c. rewrite cellAt_toggleCell. case_bool_decide as Htarget.
  - destruct Htarget as [<- <-]. rewrite !Nat2Z.id in Hout.
    destruct Hout as [?|[?| ->]]; [lia|lia|done].
  - by rewrite option_fmap_id.
Qed.

Lemma toggleCell_out_of_range_witness :
  toggleCell 5 0 (markedBoard 5 [(1, 1)]) = markedBoard 5 [(1, 1)] ∧
  toggleCell (-2) 3 (markedBoard 5 [(1, 1)]) = markedBoard 5 [(1, 1)].
Proof.
  split; apply toggleCell_out_of_range.
  - right. right. reflexivity.
  - left. lia.
Defined.

(** ** Win detector: monotonicity and bounds *)

Lemma isBingo_true_line (board : Board) :
  is5x5 board →
  isBingo board = Some true ↔ ∃ line, line ∈ bingoLines ∧ lineFull board line.
Proof.
  intros H. rewrite (isBingo_pure board H), (isBingoB_lines board H).
  split.
  - intros Hsome.
    assert (Hex : existsb (lineFullb board) bingoLines = true) by congruence.
    apply existsb_exists in Hex as (line & Hin & Hfull).
    exists line. split; [by apply list_elem_of_In|by apply lineFullb_spec].
  - intros (line & Hin & Hfull). f_equal. apply existsb_exists.
    exists line. split; [by apply list_elem_of_In|by apply lineFullb_spec].
Qed.

(** X4. Checking more cells never loses a win: if every cell checked on
    one 5x5 board is checked on another, a win of the first is a win of the
    second. *)
Theorem isBingo_monotone (before after : Board) :
  is5x5 before → is5x5 after →
  (∀ r c, checkedAt before r c = Some true → checkedAt after r c = Some true) →
  isBingo before = Some true →
  isBingo after = Some true.
Proof.
  intros Hb Ha Hmore Hwin.
  apply (isBingo_true_line before Hb) in Hwin as (line & Hin & Hfull).
  apply (isBingo_true_line after Ha). exists line. split; [done|].
  intros r c Hrc. apply Hmore. by apply Hfull.
Qed.

Lemma isBingo_monotone_witness :
  isBingo (markedBoard 5 (rowLine 1 ++ [(3, 3)])) = Some true.
Proof.
  apply (isBingo_monotone (markedBoard 5 (rowLine 1))).
  - apply markedBoard_shape.
  - apply markedBoard_shape.
  - intros r c.
    do 5 (destruct r as [|r];
      [do 5 (destruct c as [|c]; [by vm_compute|]); by vm_compute|]).
    by vm_compute.
  - by vm_compute.
Defined.

Ltac full_line H :=
  repeat match type of H with
  | (_ && _ = true) =>
      let Hc := fresh "Hc" in apply andb_prop in H as [Hc H]
  end.

(** X5. A win needs five checked cells: on a 5x5 board on which [isBingo]
    returns true, at least five cells are checked. *)
Theorem isBingo_needs_five (board : Board) :
  is5x5 board → isBingo board = Some true → 5 ≤ checkedCount board.
Proof.
  intros H Hwin.
  rewrite (isBingo_pure board H), (isBingoB_lines board H) in Hwin.
  injection Hwin as Hwin. board5 board H. cbn in Hwin.
  unfold checkedCount. simpl.
  repeat (apply orb_prop in Hwin as [Hwin|Hwin]); try discriminate;
    full_line Hwin;
    repeat match goal with
    | Hc : checked ?cell = true |- _ => rewrite Hc; clear Hc
    end; change (Nat.b2n true) with 1; lia.
Qed.

Lemma isBingo_needs_five_witness :
  5 ≤ checkedCount (markedBoard 5 (colLine 3)).
Proof.
  apply isBingo_needs_five; [apply markedBoard_shape|by vm_compute].
Defined.

Lemma forReturn_false (body : nat → option bool) (from count : nat) :
  forReturn body from count = Some false →
  ∀ i, from ≤ i < from + count → body i = Some false.
Proof.
  revert from. induction count as [|k IH]; intros from Hret i Hi; [lia|].
  cbn in Hret. destruct (body from) as [[|]|] eqn:E; cbn in Hret; try done.
  destruct (decide (i = from)) as [->|Hne]; [done|].
  apply (IH (S from) Hret). lia.
Qed.

(** X6. On a board of fewer than five rows [isBingo] never answers false:
    it returns true at a full row or throws at the first missing row. *)
Theorem isBingo_short_board (board : Board) :
  length board < 5 → isBingo board ≠ Some false.
Proof.
  intros Hshort. unfold isBingo.
  destruct (forReturn (λ i, row ← board !! i;
              every (λ cell _, Some (checked cell)) 0 row) 0 5)
    as [[|]|] eqn:E; [done| |done].
  pose proof (forReturn_false _ _ _ E (length board)) as Hrow.
  cbn beta in Hrow. rewrite (lookup_ge_None_2 board (length board)) in Hrow
    by lia.
  cbn in Hrow. intros _. assert (None = Some false) by (apply Hrow; lia).
  done.
Qed.

Lemma isBingo_short_board_witness :
  isBingo (markedBoard 4 [(0, 0)]) ≠ Some false ∧
  isBingo (markedBoard 4 [(0, 0)]) = None.
Proof.
  split; [apply isBingo_short_board; cbn; lia|reflexivity].
Defined.

(** ** Events and the local storage *)

Lemma keys_distinct : LOCAL_STORAGE_KEY ≠ THEME_KEY.
Proof. by vm_compute. Qed.

Section EventProperties.

Variable JSON_stringify : JsValue → JsString.

Lemma runEffects_board_slot (before after : AppState)
    (ls : gmap JsString JsString) :
  runEffects JSON_stringify before after ls !! LOCAL_STORAGE_KEY =
  if bool_decide (boardId before = boardId after)
  then ls !! LOCAL_STORAGE_KEY
  else Some (JSON_stringify (ofBoard (board after))).
Proof.
  unfold runEffects. pose proof keys_distinct as Hkeys.
  repeat case_bool_decide;
    rewrite ?(lookup_insert_ne _ THEME_KEY LOCAL_STORAGE_KEY) by done;
    by rewrite ?lookup_insert_eq.
Qed.

Lemma runEffects_theme_slot (before after : AppState)
    (ls : gmap JsString JsString) :
  runEffects JSON_stringify before after ls !! THEME_KEY =
  if bool_decide (theme before = theme after)
  then ls !! THEME_KEY
  else Some (themeName (theme after)).
Proof.
  unfold runEffects. pose proof keys_distinct as Hkeys.
  repeat case_bool_decide;
    rewrite ?lookup_insert_eq;
    by rewrite ?(lookup_insert_ne _ LOCAL_STORAGE_KEY THEME_KEY) by done.
Qed.

Lemma runEffects_other_slot (before after : AppState)
    (ls : gmap JsString JsString) (key : JsString) :
  key ≠ LOCAL_STORAGE_KEY → key ≠ THEME_KEY →
  runEffects JSON_stringify before after ls !! key = ls !! key.
Proof.
  intros Hboard Htheme. unfold runEffects.
  repeat case_bool_decide; by rewrite ?lookup_insert_ne by done.
Qed.

Lemma handle_keeps_theme (e : Event) (st after : AppState) :
  handle e st = Some after → e ≠ ThemeToggle → theme after = theme st.
Proof.
  intros Hh Hne. destruct e; cbn in Hh; try done.
  - unfold onCellClickHandler in Hh.
    destruct (cellAt (board st) r c); by simplify_eq/=.
  - unfold onCellKeyDownHandler, onCellClickHandler in Hh.
    destruct (_ || _); [|by simplify_eq].
    destruct (cellAt (board st) r c); by simplify_eq/=.
  - injection Hh as <-. unfold onModalCheckHandler. by destruct (_ || _).
  - by injection Hh as <-.
  - by injection Hh as <-.
Qed.

Lemma handle_keeps_board (e : Event) (st after : AppState) :
  handle e st = Some after → e ≠ ModalCheck →
  board after = board st ∧ boardId after = boardId st.
Proof.
  intros Hh Hne. destruct e; cbn in Hh; try done.
  - unfold onCellClickHandler in Hh.
    destruct (cellAt (board st) r c); by simplify_eq/=.
  - unfold onCellKeyDownHandler, onCellClickHandler in Hh.
    destruct (_ || _); [|by simplify_eq].
    destruct (cellAt (board st) r c); by simplify_eq/=.
  - by injection Hh as <-.
  - by injection Hh as <-.
  - by injection Hh as <-.
Qed.

(** A board array of the same identity is the same board. *)
Lemma handle_identity (e : Event) (st after : AppState) :
  handle e st = Some after →
  boardId st = boardId after → board after = board st.
Proof.
  intros Hh Hid.
  destruct e; try (by apply (handle_keeps_board _ st after Hh)).
  injection Hh as <-. unfold onModalCheckHandler in *.
  destruct (_ || _); [done|]. cbn in Hid. lia.
Qed.

Lemma handle_questions (e : Event) (st after : AppState) :
  handle e st = Some after →
  boardQuestions (board after) = boardQuestions (board st).
Proof.
  intros Hh.
  destruct e;
    try (by destruct (handle_keeps_board _ st after Hh) as [-> _]).
  injection Hh as <-. unfold onModalCheckHandler.
  destruct (_ || _); [done|]. apply toggleCell_questions.
Qed.

Lemma step_inSync (e : Event) (w w' : World) :
  inSync JSON_stringify w → step JSON_stringify e w = Some w' →
  inSync JSON_stringify w'.
Proof.
  intros [Hboard Htheme]. unfold step.
  destruct (handle e (app w)) as [after|] eqn:Hh; [|done].
  intros [= <-]. split; cbn [app localStorage].
  - rewrite runEffects_board_slot. case_bool_decide as Hid; [|done].
    by rewrite (handle_identity e _ _ Hh Hid).
  - rewrite runEffects_theme_slot. case_bool_decide as Hth; [|done].
    by rewrite <- Hth.
Qed.

Lemma mount_inSync (st : AppState) (ls : gmap JsString JsString) :
  inSync JSON_stringify (mount JSON_stringify st ls).
Proof.
  unfold inSync, mount, mountEffects. cbn [app localStorage]. split.
  - rewrite lookup_insert_ne by (pose proof keys_distinct; done).
    by rewrite lookup_insert_eq.
  - by rewrite lookup_insert_eq.
Qed.

Lemma run_inSync (events : list Event) (w w' : World) :
  inSync JSON_stringify w → run JSON_stringify events w = Some w' →
  inSync JSON_stringify w'.
Proof.
  revert w. induction events as [|e rest IH]; intros w Hsync; cbn.
  - by intros [= <-].
  - destruct (step JSON_stringify e w) as [w1|] eqn:Hstep; [|done].
    cbn. apply IH. by eapply step_inSync.
Qed.

Lemma run_questions (events : list Event) (w w' : World) :
  run JSON_stringify events w = Some w' →
  boardQuestions (board (app w')) = boardQuestions (board (app w)).
Proof.
  revert w. induction events as [|e rest IH]; intros w; cbn.
  - by intros [= <-].
  - unfold step. destruct (handle e (app w)) as [after|] eqn:Hh; [|done].
    cbn. intros Hrun. rewrite (IH _ Hrun). cbn [app].
    by apply (handle_questions e).
Qed.

(** X7. An event touches only what belongs to it. No event changes a key
    of the store other than the two slots; only the check handler changes
    the board or the board slot; only the theme toggle changes the theme
    or the theme slot. *)
Theorem step_frame (e : Event) (w w' : World) :
  step JSON_stringify e w = Some w' →
  (∀ key, key ≠ LOCAL_STORAGE_KEY → key ≠ THEME_KEY →
     localStorage w' !! key = localStorage w !! key) ∧
  (e ≠ ModalCheck →
     board (app w') = board (app w) ∧
     localStorage w' !! LOCAL_STORAGE_KEY
       = localStorage w !! LOCAL_STORAGE_KEY) ∧
  (e ≠ ThemeToggle →
     theme (app w') = theme (app w) ∧
     localStorage w' !! THEME_KEY = localStorage w !! THEME_KEY).
Proof.
  unfold step. destruct (handle e (app w)) as [after|] eqn:Hh; [|done].
  intros [= <-]. cbn [app localStorage]. split; [|split].
  - intros key Hb Ht. by apply runEffects_other_slot.
  - intros Hne. destruct (handle_keeps_board e _ _ Hh Hne) as [Hsame Hid].
    split; [done|]. rewrite runEffects_board_slot.
    by rewrite bool_decide_eq_true_2.
  - intros Hne. pose proof (handle_keeps_theme e _ _ Hh Hne) as Hsame.
    split; [done|]. rewrite runEffects_theme_slot.
    by rewrite bool_decide_eq_true_2.
Qed.

(** X8. After the first render and any sequence of events that does not
    throw, the store mirrors the state: the board slot holds the
    serialisation of the board in memory and the theme slot the name of the
    theme in memory. *)
Theorem run_from_mount_inSync (st : AppState) (ls : gmap JsString JsString)
    (events : list Event) (w : World) :
  run JSON_stringify events (mount JSON_stringify st ls) = Some w →
  localStorage w !! LOCAL_STORAGE_KEY
    = Some (JSON_stringify (ofBoard (board (app w)))) ∧
  localStorage w !! THEME_KEY = Some (themeName (theme (app w))).
Proof.
  intros Hrun. exact (run_inSync events _ _ (mount_inSync st ls) Hrun).
Qed.

(** X9. The theme survives a reload: after the first render and any
    sequence of events, [getInitialTheme] applied to the theme slot gives
    the theme in memory, whatever the colour scheme the system prefers. *)
Theorem getInitialTheme_after_run (st : AppState)
    (ls : gmap JsString JsString) (events : list Event) (w : World)
    (matchMedia : option bool) :
  run JSON_stringify events (mount JSON_stringify st ls) = Some w →
  getInitialTheme (localStorage w !! THEME_KEY) matchMedia = theme (app w).
Proof.
  intros Hrun.
  destruct (run_inSync events _ _ (mount_inSync st ls) Hrun) as [_ ->].
  by destruct (theme (app w)).
Qed.

End EventProperties.

Lemma step_frame_witness :
  ∃ w, step jsonText (SearchChange (js "budget")) sampleWorld = Some w ∧
       board (app w) = board (app sampleWorld) ∧
       theme (app w) = theme (app sampleWorld).
Proof.
  eexists. split; [reflexivity|].
  destruct (step_frame jsonText (SearchChange (js "budget")) sampleWorld _
              eq_refl) as (_ & Hboard & Htheme).
  split; [by apply Hboard|by apply Htheme].
Defined.

Lemma run_from_mount_inSync_witness :
  ∃ w, run jsonText [CellClick 0 0; ModalCheck; ThemeToggle] sampleWorld
         = Some w ∧
       localStorage w !! LOCAL_STORAGE_KEY
         = Some (jsonText (ofBoard (board (app w)))) ∧
       localStorage w !! THEME_KEY = Some (themeName (theme (app w))).
Proof.
  eexists. split; [reflexivity|].
  apply (run_from_mount_inSync jsonText (sampleState [] (-1) (-1)) ∅
           [CellClick 0 0; ModalCheck; ThemeToggle]).
  reflexivity.
Defined.

Lemma getInitialTheme_after_run_witness :
  ∃ w, run jsonText [ThemeToggle] sampleWorld = Some w ∧
       theme (app w) = dark ∧
       getInitialTheme (localStorage w !! THEME_KEY) (Some false) = dark.
Proof.
  eexists. split; [reflexivity|]. split; [reflexivity|].
  apply (getInitialTheme_after_run jsonText (sampleState [] (-1) (-1)) ∅
           [ThemeToggle]).
  reflexivity.
Defined.

(** ** Reloading what the page stored *)

Section Reload.

Variable questionsData : list Question.
Variable JSON_parse : JsString → option JsValue.
Variable JSON_stringify : JsValue → JsString.

(** X10. The board survives a reload. Start from a board that carries the
    25 catalog questions, run any sequence of events, and let the text in
    the board slot parse back to the value it was written from: then
    [getInitialBoard] over the same catalog returns the board in memory,
    checked flags included. *)
Theorem getInitialBoard_after_run (st : AppState)
    (ls : gmap JsString JsString) (events : list Event) (w : World) :
  length questionsData = 25 →
  boardQuestions (board st) = q_question <$> questionsData →
  run JSON_stringify events (mount JSON_stringify st ls) = Some w →
  JSON_stringify (ofBoard (board (app w))) ≠ [] →
  JSON_parse (JSON_stringify (ofBoard (board (app w))))
    = Some (ofBoard (board (app w))) →
  getInitialBoard questionsData JSON_parse
    (localStorage w !! LOCAL_STORAGE_KEY)
  = Some (ofBoard (board (app w))).
Proof.
  intros Hlen Hquestions Hrun Htext Hparse.
  destruct (run_inSync JSON_stringify events _ _
              (mount_inSync JSON_stringify st ls) Hrun) as [-> _].
  pose proof (run_questions JSON_stringify events _ _ Hrun) as Hkept.
  cbn [mount app] in Hkept.
  unfold getInitialBoard.
  destruct (JSON_stringify (ofBoard (board (app w)))) as [|c0 text] eqn:E;
    [done|].
  assert (tryAdopt questionsData JSON_parse (c0 :: text)
          = Some (ofBoard (board (app w)))) as ->; [|done].
  apply tryAdopt_Some. split; [done|].
  eexists. split; [apply flatSavedOf_ofBoard|].
  apply agreesWith_questions; [done|].
  intros i _. by rewrite Hkept, Hquestions.
Qed.

(** X11. Loading is stable: when the value [getInitialBoard] returned is
    written to the slot and the text parses back to it, loading again
    returns the same value, for every catalog and every first content of
    the slot. *)
Theorem getInitialBoard_reload_stable (saved : option JsString)
    (loaded : JsValue) :
  getInitialBoard questionsData JSON_parse saved = Some loaded →
  JSON_stringify loaded ≠ [] →
  JSON_parse (JSON_stringify loaded) = Some loaded →
  getInitialBoard questionsData JSON_parse (Some (JSON_stringify loaded))
  = Some loaded.
Proof.
  intros Hload Htext Hparse. unfold getInitialBoard in *.
  destruct (JSON_stringify loaded) as [|c0 text] eqn:E; [done|].
  destruct (tryAdopt questionsData JSON_parse (c0 :: text)) as [j|] eqn:Ej.
  - apply tryAdopt_Some in Ej as [Hj _]. congruence.
  - destruct saved as [[|c1 first]|]; try exact Hload.
    destruct (tryAdopt questionsData JSON_parse (c1 :: first))
      as [j|] eqn:Efirst; [|exact Hload].
    injection Hload as ->.
    apply tryAdopt_Some in Efirst as (_ & fs & Hfs & Hagree).
    assert (tryAdopt questionsData JSON_parse (c0 :: text) = Some loaded)
      as Hadopt by (apply tryAdopt_Some; eauto).
    congruence.
Qed.

(** X12. With a catalog of fewer than 25 questions no fresh grid can be
    built: [getInitialBoard] either returns the parsed value of the slot
    or throws, and with an empty store it throws. *)
Theorem getInitialBoard_short_catalog (saved : option JsString) :
  length questionsData < 25 →
  getInitialBoard questionsData JSON_parse None = None ∧
  (getInitialBoard questionsData JSON_parse saved = None ∨
   ∃ text, saved = Some text ∧
           getInitialBoard questionsData JSON_parse saved = JSON_parse text).
Proof.
  intros Hshort.
  assert (Hfresh : freshBoard questionsData = None).
  { clear saved. revert Hshort. generalize questionsData as qs. intros qs Hshort.
    do 25 (destruct qs as [|? qs]; [reflexivity|]). cbn in Hshort. lia. }
  unfold getInitialBoard. rewrite Hfresh. split; [done|].
  destruct saved as [[|c0 text]|]; [by left|idtac|by left].
  destruct (tryAdopt questionsData JSON_parse (c0 :: text)) as [j|] eqn:E;
    [|by left].
  right. exists (c0 :: text). split; [done|].
  by apply tryAdopt_Some in E as [-> _].
Qed.

(** X13. With a catalog of more than 25 questions a stored 5x5 board is
    never adopted: position 25 of its flattened sequence is [undefined],
    so the result is the fresh grid and the stored checks are lost. *)
Theorem getInitialBoard_long_catalog (text : JsString) (persisted : Board) :
  25 < length questionsData →
  is5x5 persisted →
  JSON_parse text = Some (ofBoard persisted) →
  getInitialBoard questionsData JSON_parse (Some text)
  = ofBoard <$> freshBoard questionsData.
Proof.
  intros Hlong Hshape Hparse. unfold getInitialBoard.
  destruct text as [|c0 text]; [done|].
  rewrite tryAdopt_None; [done|]. right. exists (ofBoard persisted).
  split; [done|]. intros flatSaved. rewrite flatSavedOf_ofBoard.
  intros [= <-].
  destruct (lookup_lt_is_Some_2 (q_question <$> questionsData) 25) as [q Hq].
  { rewrite length_fmap. lia. }
  exists 25, q. split; [done|].
  rewrite list_lookup_fmap.
  rewrite (lookup_ge_None_2 (boardQuestions persisted) 25); [done|].
  board5 persisted Hshape. cbn. lia.
Qed.

End Reload.

Lemma getInitialBoard_after_run_witness :
  let stored := ofBoard (markedBoard 5 [(0, 0)]) in
  ∃ w, run jsonText [CellClick 0 0; ModalCheck] sampleWorld = Some w ∧
       board (app w) = markedBoard 5 [(0, 0)] ∧
       getInitialBoard sampleCatalog (parseOnly (jsonText stored) stored)
         (localStorage w !! LOCAL_STORAGE_KEY)
       = Some (ofBoard (board (app w))).
Proof.
  intros stored. eexists. split; [reflexivity|]. split; [reflexivity|].
  apply (getInitialBoard_after_run sampleCatalog
           (parseOnly (jsonText stored) stored) jsonText
           (sampleState [] (-1) (-1)) ∅ [CellClick 0 0; ModalCheck]).
  - reflexivity.
  - reflexivity.
  - reflexivity.
  - by vm_compute.
  - unfold parseOnly. by rewrite bool_decide_eq_true_2.
Defined.

Lemma getInitialBoard_reload_stable_witness :
  let fresh := ofBoard (markedBoard 5 []) in
  getInitialBoard sampleCatalog (parseOnly (jsonText fresh) fresh) None
    = Some fresh ∧
  getInitialBoard sampleCatalog (parseOnly (jsonText fresh) fresh)
    (Some (jsonText fresh)) = Some fresh.
Proof.
  intros fresh. split; [reflexivity|].
  apply (getInitialBoard_reload_stable sampleCatalog
           (parseOnly (jsonText fresh) fresh) jsonText None fresh).
  - reflexivity.
  - by vm_compute.
  - unfold parseOnly. by rewrite bool_decide_eq_true_2.
Defined.

Lemma getInitialBoard_short_catalog_witness :
  getInitialBoard (take 24 sampleCatalog) (λ _, None) None = None.
Proof.
  apply (getInitialBoard_short_catalog (take 24 sampleCatalog) (λ _, None)
           None).
  cbn. lia.
Defined.

Lemma getInitialBoard_long_catalog_witness :
  let persisted := markedBoard 5 [(0, 0)] in
  let catalog := sampleCatalog ++ take 1 sampleCatalog in
  getInitialBoard catalog
    (parseOnly (boardText persisted) (ofBoard persisted))
    (Some (boardText persisted))
  = Some (ofBoard (markedBoard 5 [])).
Proof.
  intros persisted catalog.
  rewrite (getInitialBoard_long_catalog catalog
             (parseOnly (boardText persisted) (ofBoard persisted))
             (boardText persisted) persisted).
  - reflexivity.
  - cbn. lia.
  - apply markedBoard_shape.
  - unfold parseOnly. by rewrite bool_decide_eq_true_2.
Defined.

(** ** The modal: selecting a cell, its texts, checking it *)

Lemma getIdx_of_nat {A} (arr : list A) (i : nat) :
  getIdx arr (Z.of_nat i) = arr !! i.
Proof.
  unfold getIdx. destruct (Z.ltb_spec (Z.of_nat i) 0); [lia|].
  by rewrite Nat2Z.id.
Qed.

(** X14. Clicking a cell of the board and then pressing the check button
    flips that cell and no other: the click opens the modal on the cell
    with its question as heading, and the check handler then flips the
    cell, leaves every other position alone and closes the modal. *)
Theorem click_then_check (st : AppState) (r c : nat) (cell : BingoCell) :
  cellAt (board st) r c = Some cell →
  ∃ selected,
    onCellClickHandler r c st = Some selected ∧
    open (modal selected) = true ∧
    modalTitle selected = Some (question cell) ∧
    cellAt (board (onModalCheckHandler selected)) r c
      = Some (flipCell cell) ∧
    (∀ r' c', (r', c') ≠ (r, c) →
       cellAt (board (onModalCheckHandler selected)) r' c'
       = cellAt (board st) r' c') ∧
    open (modal (onModalCheckHandler selected)) = false.
Proof.
  intros Hcell. unfold onCellClickHandler. rewrite Hcell. cbn [mbind option_bind].
  eexists. split; [reflexivity|]. split; [reflexivity|]. split.
  - unfold modalTitle. cbn [modal board row col].
    rewrite !bool_decide_eq_true_2 by lia. cbn [andb].
    rewrite getIdx_of_nat. unfold cellAt in Hcell.
    destruct (board st !! r) as [cells|]; [|done]. cbn in *.
    by rewrite getIdx_of_nat, Hcell.
  - rewrite onModalCheckHandler_selected by (cbn; lia).
    cbn [board modal open row col]. split; [|split; [|done]].
    + rewrite cellAt_toggleCell, Hcell.
      by rewrite bool_decide_eq_true_2.
    + intros r' c' Hne. rewrite cellAt_toggleCell.
      rewrite bool_decide_eq_false_2; [by rewrite option_fmap_id|].
      intros [Hr Hc]. apply Hne. f_equal; lia.
Qed.

Lemma click_then_check_witness :
  ∃ selected,
    onCellClickHandler 2 3 (sampleState [] (-1) (-1)) = Some selected ∧
    cellAt (board (onModalCheckHandler selected)) 2 3
    = Some {| question := js "question N"; checked := true |}.
Proof.
  destruct (click_then_check (sampleState [] (-1) (-1)) 2 3
              {| question := js "question N"; checked := false |} eq_refl)
    as (selected & Hclick & _ & _ & Hflip & _).
  exists selected. split; [exact Hclick|exact Hflip].
Defined.

(** X15. The caption of the check button names what the check handler
    does: with the modal on a cell of the board, the caption is [Check]
    exactly when the handler leaves the cell checked, and [Uncheck]
    exactly when it leaves the cell unchecked. *)
Theorem checkButtonLabel_names_action (st : AppState) (r c : nat)
    (cell : BingoCell) :
  row (modal st) = Z.of_nat r →
  col (modal st) = Z.of_nat c →
  cellAt (board st) r c = Some cell →
  let after := board (onModalCheckHandler st) in
  (checkButtonLabel st = Some (js "Check") ↔
     checkedAt after r c = Some true) ∧
  (checkButtonLabel st = Some (js "Uncheck") ↔
     checkedAt after r c = Some false).
Proof.
  intros Hrow Hcol Hcell after. subst after.
  rewrite onModalCheckHandler_selected by lia. cbn [board].
  unfold checkedAt. rewrite cellAt_toggleCell, Hcell.
  rewrite bool_decide_eq_true_2 by done. cbn [fmap option_fmap option_map].
  unfold checkButtonLabel. rewrite Hrow, Hcol.
  rewrite !bool_decide_eq_true_2 by lia. cbn [andb].
  rewrite getIdx_of_nat. unfold cellAt in Hcell.
  destruct (board st !! r) as [cells|]; [|done]. cbn in Hcell |- *.
  rewrite getIdx_of_nat, Hcell. cbn.
  destruct (checked cell); cbn; split; split; intros H; try done;
    by vm_compute in H.
Qed.

Lemma checkButtonLabel_names_action_witness :
  checkButtonLabel (sampleState [(1, 1)] 1 1) = Some (js "Uncheck").
Proof.
  apply (checkButtonLabel_names_action (sampleState [(1, 1)] 1 1) 1 1
           {| question := js "question G"; checked := true |});
    reflexivity.
Defined.

(** X16. Checking the last open cell of a line wins: on a 5x5 board, when
    every cell of one of the twelve lines is checked except the unchecked
    cell at (r, c), the board after the toggle at (r, c) is a win. *)
Theorem toggleCell_completes_line (before : Board)
    (line : list (nat * nat)) (r c : nat) :
  is5x5 before →
  line ∈ bingoLines →
  checkedAt before r c = Some false →
  (∀ r' c', (r', c') ∈ line → (r', c') ≠ (r, c) →
     checkedAt before r' c' = Some true) →
  isBingo (toggleCell (Z.of_nat r) (Z.of_nat c) before) = Some true.
Proof.
  intros Hshape Hline Hopen Hrest.
  apply isBingo_true_line; [by apply toggleCell_shape|].
  exists line. split; [done|]. intros r' c' Hin.
  unfold checkedAt in *. rewrite cellAt_toggleCell.
  destruct (decide ((r', c') = (r, c))) as [[= -> ->]|Hne].
  - rewrite bool_decide_eq_true_2 by done.
    destruct (cellAt before r c) as [[q []]|]; by simplify_eq/=.
  - rewrite bool_decide_eq_false_2; [|intros [? ?]; apply Hne; f_equal; lia].
    rewrite option_fmap_id. by apply Hrest.
Qed.

Lemma toggleCell_completes_line_witness :
  isBingo (toggleCell 4 0 (markedBoard 5 [(0, 4); (1, 3); (2, 2); (3, 1)]))
  = Some true.
Proof.
  apply (toggleCell_completes_line _ antiDiagonal 4 0).
  - apply markedBoard_shape.
  - by apply (bool_decide_unpack _); vm_compute.
  - reflexivity.
  - intros r' c' Hin Hne. apply list_elem_of_In in Hin. cbn in Hin.
    destruct Hin as [[= <- <-]|[[= <- <-]|[[= <- <-]|[[= <- <-]|
                    [[= <- <-]|[]]]]]]; by vm_compute.
Defined.

(** ** Search filter: white space around the query *)

Lemma trimStart_skip (pre s : JsString) :
  Forall (λ c, isWhiteSpace c = true) pre → trimStart (pre ++ s) = trimStart s.
Proof.
  induction 1 as [|c pre Hc _ IH]; [done|]. cbn. by rewrite Hc.
Qed.

Lemma trimStart_app (s t : JsString) :
  trimStart s ≠ [] → trimStart (s ++ t) = trimStart s ++ t.
Proof.
  induction s as [|c s IH]; [done|]. cbn.
  destruct (isWhiteSpace c); [exact IH|done].
Qed.

Lemma trimStart_nil_blank (s : JsString) :
  trimStart s = [] → Forall (λ c, isWhiteSpace c = true) s.
Proof.
  intros Hnil. destruct (trimStart_split s) as (pre & Hs & Hpre & _).
  rewrite Hnil, app_nil_r in Hs. by rewrite Hs.
Qed.

Lemma trim_padding (pre post s : JsString) :
  Forall (λ c, isWhiteSpace c = true) pre →
  Forall (λ c, isWhiteSpace c = true) post →
  trim (pre ++ s ++ post) = trim s.
Proof.
  intros Hpre Hpost. unfold trim. rewrite (trimStart_skip pre _ Hpre).
  destruct (trimStart s) as [|c core] eqn:E.
  - rewrite (trimStart_blank (s ++ post)); [done|].
    apply Forall_app. split; [by apply trimStart_nil_blank|done].
  - rewrite trimStart_app by (by rewrite E). rewrite E, reverse_app.
    by rewrite trimStart_skip by (by apply Forall_reverse).
Qed.

(** X17. White space around the query does not matter: a query padded
    with white space on either side shows exactly the cells the bare query
    shows, for every lower-casing function. *)
Theorem cellVisible_padding (toLowerCase : JsString → JsString)
    (pre post query : JsString) (cell : BingoCell) :
  Forall (λ c, isWhiteSpace c = true) pre →
  Forall (λ c, isWhiteSpace c = true) post →
  cellVisible toLowerCase (pre ++ query ++ post) cell
  = cellVisible toLowerCase query cell.
Proof.
  intros Hpre Hpost. unfold cellVisible.
  by rewrite (trim_padding pre post query Hpre Hpost).
Qed.

Lemma cellVisible_padding_witness :
  cellVisible asciiLower (js "  " ++ js "Lunch" ++ [9%N; 10%N])
    {| question := js "team lunch"; checked := false |}
  = cellVisible asciiLower (js "Lunch")
      {| question := js "team lunch"; checked := false |}.
Proof.
  apply cellVisible_padding; repeat constructor.
Defined.

(** ** A fresh start *)

(** X18. A fresh start is not a win: with a catalog of 25 questions and
    nothing in the store, the loaded grid has no checked cell and
    [isBingo] returns false on it. *)
Theorem getInitialBoard_fresh_not_win (questionsData : list Question)
    (JSON_parse : JsString → option JsValue) :
  length questionsData = 25 →
  ∃ grid : Board,
    getInitialBoard questionsData JSON_parse None = Some (ofBoard grid) ∧
    checkedCount grid = 0 ∧
    isBingo grid = Some false.
Proof.
  intros Hlen.
  do 25 (destruct questionsData as [|? questionsData]; [by inversion Hlen|]).
  destruct questionsData; [clear Hlen|by inversion Hlen].
  eexists. split; [reflexivity|]. split; reflexivity.
Qed.

Lemma getInitialBoard_fresh_not_win_witness :
  ∃ grid : Board,
    getInitialBoard sampleCatalog (λ _, None) None = Some (ofBoard grid) ∧
    checkedCount grid = 0 ∧
    isBingo grid = Some false.
Proof.
  apply getInitialBoard_fresh_not_win. reflexivity.
Defined.

(** ** Mismatch in length *)

(** A value that misses the catalog at a catalog position is mismatched;
    the converse fails for a sequence that goes on after the catalog. *)
Lemma missesCatalogPosition_mismatched (questionsData : list Question)
    (parsed : JsValue) :
  missesCatalogPosition questionsData parsed →
  mismatched questionsData parsed.
Proof.
  intros Hmiss Hsame. destruct (Hmiss _ Hsame) as (i & q & Hq & Hdiff).
  apply Hdiff. unfold catalogSequence.
  rewrite list_lookup_fmap. rewrite list_lookup_fmap in Hq.
  destruct (questionsData !! i) as [entry|]; [|done].
  by injection Hq as <-.
Qed.

Lemma sixRows_adopted (JSON_parse : JsString → option JsValue)
    (text : JsString) :
  text ≠ [] →
  JSON_parse text = Some (ofBoard sixRows) →
  getInitialBoard sampleCatalog JSON_parse (Some text) = Some (ofBoard sixRows).
Proof.
  intros Htext Hparse. unfold getInitialBoard.
  destruct text as [|c0 text]; [done|].
  assert (tryAdopt sampleCatalog JSON_parse (c0 :: text)
          = Some (ofBoard sixRows)) as ->; [|done].
  apply tryAdopt_Some. split; [done|].
  eexists. split; [apply flatSavedOf_ofBoard|].
  intros i q Hq.
  assert (i < 25) as Hi by (by apply lookup_lt_Some in Hq).
  rewrite list_lookup_fmap.
  do 25 (destruct i as [|i]; [by injection Hq as <-|]). lia.
Qed.

(** C4 at the stored grid of six rows. Its flattened question sequence has
    30 entries, so it is mismatched against the catalog's 25 questions; yet
    the loader does not discard it: the six rows are returned, which is
    neither the fresh grid nor a 5x5 grid. *)
Theorem getInitialBoard_keeps_mismatched
    (JSON_parse : JsString → option JsValue) (text : JsString) :
  text ≠ [] →
  JSON_parse text = Some (ofBoard sixRows) →
  mismatched sampleCatalog (ofBoard sixRows) ∧
  boardQuestions sixRows ≠ q_question <$> sampleCatalog ∧
  getInitialBoard sampleCatalog JSON_parse (Some text)
    = Some (ofBoard sixRows) ∧
  getInitialBoard sampleCatalog JSON_parse (Some text)
    ≠ ofBoard <$> freshBoard sampleCatalog ∧
  ¬ is5x5 sixRows.
Proof.
  intros Htext Hparse. rewrite (sixRows_adopted JSON_parse text Htext Hparse).
  split; [|split; [|split; [done|split]]].
  - unfold mismatched. rewrite flatSavedOf_ofBoard. intros Hsame.
    injection Hsame as Hsame. by apply (f_equal length) in Hsame.
  - intros Hsame. by apply (f_equal length) in Hsame.
  - intros Hfresh. vm_compute in Hfresh. discriminate Hfresh.
  - intros [Hrows _]. by vm_compute in Hrows.
Qed.

Lemma getInitialBoard_keeps_mismatched_witness :
  boardText sixRows ≠ [] ∧
  mismatched sampleCatalog (ofBoard sixRows) ∧
  getInitialBoard sampleCatalog
    (parseOnly (boardText sixRows) (ofBoard sixRows))
    (Some (boardText sixRows)) = Some (ofBoard sixRows).
Proof.
  assert (Htext : boardText sixRows ≠ []) by (by vm_compute).
  assert (Hparse : parseOnly (boardText sixRows) (ofBoard sixRows)
                     (boardText sixRows) = Some (ofBoard sixRows)).
  { unfold parseOnly. by rewrite bool_decide_eq_true_2. }
  destruct (getInitialBoard_keeps_mismatched _ _ Htext Hparse)
    as (Hmis & _ & Hload & _).
  split; [exact Htext|]. split; [exact Hmis|exact Hload].
Defined.
